(** * gazebo-realsense: the RealSense model plugin (gzrs/gzrs_plugin.cc)

    A shallow embedding of [RealSensePlugin::Load] and
    [RealSensePlugin::OnNewDepthFrame], and the properties of the depth
    stream: the float-to-device-depth conversion, the device depth buffer,
    and the two messages published per depth frame.

    Floating point is IEEE 754 as specified by [SpecFloat]: the depth
    samples are binary32 ([float]), the clip and scale constants and the
    division are binary64 ([double]), and every expression is evaluated in
    the precision of its type, rounding to nearest even. [unsigned int]
    has 32 bits and [size_t] 64. *)

From Stdlib Require Import ZArith Lia Bool String.
From Stdlib Require Import QArith Qround.
From Stdlib Require Import Floats.SpecFloat.
From stdpp Require Import base list.

Local Open Scope Z_scope.

(** ** Machine integers *)

(** [unsigned int] and [size_t] (LP64) arithmetic wraps around. *)
Definition u32 (z : Z) : Z := z mod 2 ^ 32.
Definition usize (z : Z) : Z := z mod 2 ^ 64.
Definition UINT16_MAX : Z := 65535.

(** ** IEEE 754 values *)

Module IEEE.

(** binary32 has 24 bits of precision, binary64 has 53. *)
Definition prec32 : Z := 24.
Definition emax32 : Z := 128.
Definition prec64 : Z := 53.
Definition emax64 : Z := 1024.

(** A [float] is a binary32 datum: zero, infinity, NaN, or a finite
    number in canonical form. *)
Record float := mk_float {
  bits : spec_float;
  float_valid : valid_binary prec32 emax32 bits = true
}.

Definition nan : float := mk_float S754_nan eq_refl.
Definition infinity (s : bool) : float := mk_float (S754_infinity s) eq_refl.
Definition zero (s : bool) : float := mk_float (S754_zero s) eq_refl.

Definition is_nan (v : spec_float) : bool :=
  match v with S754_nan => true | _ => false end.

(** The datum [x] as a [float]; NaN when [x] is not one. *)
Definition to_float (x : spec_float) : float :=
  match valid_binary prec32 emax32 x as b
        return valid_binary prec32 emax32 x = b -> float with
  | true => fun H => mk_float x H
  | false => fun _ => nan
  end eq_refl.

(** The integer [z] as a [double] or as a [float], rounded to nearest. *)
Definition double_of_Z (z : Z) : spec_float :=
  binary_normalize prec64 emax64 z 0 false.
Definition float_of_Z (z : Z) : float :=
  to_float (binary_normalize prec32 emax32 z 0 false).

(** The decimal literal [n/d], for [n] and [d] that convert exactly: the
    correctly rounded quotient is the value nearest to the literal. *)
Definition double_lit (n d : Z) : spec_float :=
  SFdiv prec64 emax64 (double_of_Z n) (double_of_Z d).
Definition float_lit (n d : Z) : float :=
  to_float (SFdiv prec32 emax32 (bits (float_of_Z n)) (bits (float_of_Z d))).

(** The conversion of a [float] operand to [double]; it is exact. *)
Definition float_to_double (v : spec_float) : spec_float :=
  match v with
  | S754_finite s m e => binary_round prec64 emax64 s m e
  | _ => v
  end.

Definition lt (x y : spec_float) : bool := SFltb x y.
Definition gt (x y : spec_float) : bool := SFltb y x.
Definition ddiv (x y : spec_float) : spec_float := SFdiv prec64 emax64 x y.
Definition dmul (x y : spec_float) : spec_float := SFmul prec64 emax64 x y.

(** The finite [m * 2^e] with its fraction discarded. *)
Definition truncate (s : bool) (m : positive) (e : Z) : Z :=
  let a := match e with
           | Z0 => Zpos m
           | Zpos p => Zpos m * 2 ^ Zpos p
           | Zneg p => Zpos m / 2 ^ Zpos p
           end in
  if s then - a else a.

(** The conversion [(uint16_t) d] of a [double]: the fraction is
    discarded, and the behaviour is undefined when the truncated value
    cannot be represented, which covers NaN and the infinities. *)
Definition to_uint16 (d : spec_float) : option Z :=
  match d with
  | S754_zero _ => Some 0
  | S754_finite s m e =>
      let t := truncate s m e in
      if (0 <=? t) && (t <=? UINT16_MAX) then Some t else None
  | _ => None
  end.

(** The exact rational value of a finite datum (0 for the others). *)
Definition to_Q (v : spec_float) : Q :=
  match v with
  | S754_finite s m e =>
      let a := match e with
               | Z0 => Zpos m # 1
               | Zpos p => (Zpos m * 2 ^ Zpos p) # 1
               | Zneg p => Zpos m # (2 ^ p)%positive
               end in
      if s then Qopp a else a
  | _ => 0%Q
  end.

End IEEE.

Coercion IEEE.bits : IEEE.float >-> spec_float.

(** ** Constants of the plugin *)

Definition DEPTH_NEAR_CLIP_M : spec_float := IEEE.double_lit 3 10.
Definition DEPTH_FAR_CLIP_M : spec_float := IEEE.double_lit 10 1.
Definition DEPTH_SCALE_M : spec_float := IEEE.double_lit 1 1000.

(** [DEPTH_SCALE_M * UINT16_MAX]: the [int] operand is converted to
    [double] and the product is rounded. *)
Definition DEPTH_OVERFLOW_M : spec_float :=
  IEEE.dmul DEPTH_SCALE_M (IEEE.double_of_Z UINT16_MAX).

(** The decimal that [DEPTH_SCALE_M] is written as. *)
Definition SCALE : Q := 1 # 1000.

Definition DEPTH_CAMERA_NAME : string := "depth".
Definition COLOR_CAMERA_NAME : string := "color".
Definition IRED1_CAMERA_NAME : string := "ired1".
Definition IRED2_CAMERA_NAME : string := "ired2".

Definition DEPTH_CAMERA_TOPIC : string := "depth".
Definition COLOR_CAMERA_TOPIC : string := "color".
Definition IRED1_CAMERA_TOPIC : string := "infrared".
Definition IRED2_CAMERA_TOPIC : string := "infrared2".

(** ** Undefined behaviour *)

Inductive Fault :=
| NullDeref      (* [->] through a null pointer *)
| OutOfBounds    (* an access past the end of a buffer *)
| BadCast.       (* a floating-integral conversion with no result *)

Inductive Res (A : Type) :=
| Ok (a : A)
| Crash (f : Fault).
Arguments Ok {A} a.
Arguments Crash {A} f.

(** ** The conversion of one sample: the body of the loop *)

(** [v < NEAR || v > FAR || v > SCALE * UINT16_MAX || v < 0]: the first
    three compare in [double], the last one in [float]. *)
Definition clipped (v : IEEE.float) : bool :=
  let d := IEEE.float_to_double v in
  IEEE.lt d DEPTH_NEAR_CLIP_M
  || IEEE.gt d DEPTH_FAR_CLIP_M
  || IEEE.gt d DEPTH_OVERFLOW_M
  || IEEE.lt v (IEEE.float_of_Z 0).

Definition encode (v : IEEE.float) : Res Z :=
  if clipped v then Ok 0
  else match IEEE.to_uint16 (IEEE.ddiv (IEEE.float_to_double v) DEPTH_SCALE_M) with
       | Some x => Ok x
       | None => Crash BadCast
       end.

(** ** The depth camera, the world and the messages *)

(** What the depth camera renderer answers during one callback. The three
    dimensions are [unsigned int]; [DepthData] is the camera's own buffer. *)
Record DepthCamera := {
  ImageWidth : Z;
  ImageHeight : Z;
  ImageDepth : Z;
  DepthData : list IEEE.float
}.

Record Time := { sec : Z; nsec : Z }.

(** The world as the plugin observes it: the simulation time answered by
    the k-th [GetSimTime] call, and whether the k-th [depthMap.resize]
    call obtains its memory. *)
Record World := {
  GetSimTime : nat -> Time;
  resizeOk : nat -> bool
}.

Inductive PixelFormat := UNKNOWN_PIXEL_FORMAT | L_INT16 | R_FLOAT32.

Inductive Payload :=
| Empty
| Floats (samples : list IEEE.float)
| Depths (samples : list Z).

(** [msgs::ImageStamped], flattened; [data_size] is the byte count handed
    to [set_data]. *)
Record ImageStamped := {
  time : Time;
  width : Z;
  height : Z;
  pixel_format : PixelFormat;
  step : Z;
  data : Payload;
  data_size : Z
}.

Definition new_msg : ImageStamped :=
  {| time := {| sec := 0; nsec := 0 |}; width := 0; height := 0;
     pixel_format := UNKNOWN_PIXEL_FORMAT; step := 0;
     data := Empty; data_size := 0 |}.

Definition set_time (t : Time) (m : ImageStamped) : ImageStamped :=
  {| time := t; width := width m; height := height m;
     pixel_format := pixel_format m; step := step m;
     data := data m; data_size := data_size m |}.
Definition set_width (w : Z) (m : ImageStamped) : ImageStamped :=
  {| time := time m; width := w; height := height m;
     pixel_format := pixel_format m; step := step m;
     data := data m; data_size := data_size m |}.
Definition set_height (h : Z) (m : ImageStamped) : ImageStamped :=
  {| time := time m; width := width m; height := h;
     pixel_format := pixel_format m; step := step m;
     data := data m; data_size := data_size m |}.
Definition set_pixel_format (f : PixelFormat) (m : ImageStamped) : ImageStamped :=
  {| time := time m; width := width m; height := height m;
     pixel_format := f; step := step m;
     data := data m; data_size := data_size m |}.
Definition set_step (k : Z) (m : ImageStamped) : ImageStamped :=
  {| time := time m; width := width m; height := height m;
     pixel_format := pixel_format m; step := k;
     data := data m; data_size := data_size m |}.
Definition set_data (d : Payload) (n : Z) (m : ImageStamped) : ImageStamped :=
  {| time := time m; width := width m; height := height m;
     pixel_format := pixel_format m; step := step m;
     data := d; data_size := n |}.

Inductive Publisher := depthPub | depthViewPub | colorPub | ired1Pub | ired2Pub.

(** ** The plugin while it streams *)

(** [depthMap] is the device depth buffer of [RealSensePluginPrivate]. The
    other fields record what the plugin did: the messages handed to
    [Publish], oldest first, the lines written to [std::cerr], and the
    numbers of [GetSimTime] and [resize] calls made. *)
Record Stream := {
  depthMap : list Z;
  published : list (Publisher * ImageStamped);
  cerr : list string;
  timeReads : nat;
  resizes : nat
}.

Definition M (A : Type) : Type := Stream -> Res (A * Stream).

Definition ret {A} (a : A) : M A := fun st => Ok (a, st).
Definition bind {A B} (c : M A) (k : A -> M B) : M B :=
  fun st => match c st with
            | Ok (a, st') => k a st'
            | Crash f => Crash f
            end.
Definition crash {A} (f : Fault) : M A := fun _ => Crash f.

Declare Scope plugin_scope.
Delimit Scope plugin_scope with plugin.
Notation "x <- c ;; k" := (bind c (fun x => k))
  (at level 100, c at next level, right associativity) : plugin_scope.
Notation "c ;; k" := (bind c (fun _ => k))
  (at level 100, right associativity) : plugin_scope.
Local Open Scope plugin_scope.

Definition simTime (w : World) : M Time := fun st =>
  Ok (GetSimTime w (timeReads st),
      {| depthMap := depthMap st; published := published st; cerr := cerr st;
         timeReads := S (timeReads st); resizes := resizes st |}).

Definition Publish (p : Publisher) (msg : ImageStamped) : M unit := fun st =>
  Ok (tt,
      {| depthMap := depthMap st; published := published st ++ [(p, msg)];
         cerr := cerr st; timeReads := timeReads st; resizes := resizes st |}).

Definition log_cerr (line : string) : M unit := fun st =>
  Ok (tt,
      {| depthMap := depthMap st; published := published st;
         cerr := cerr st ++ [line]; timeReads := timeReads st;
         resizes := resizes st |}).

Definition get_depthMap : M (list Z) := fun st => Ok (depthMap st, st).

Definition put_depthMap (l : list Z) : M unit := fun st =>
  Ok (tt,
      {| depthMap := l; published := published st; cerr := cerr st;
         timeReads := timeReads st; resizes := resizes st |}).

(** [depthMap.resize(n)] inside the [try]: the answer is [false] when
    [std::bad_alloc] was thrown, and then the vector is as it was. On
    success the vector is cut to [n] elements or filled up with zeros.
    The world decides which calls fail; it may refuse more calls than a
    real allocator would (one that shrinks the vector, say), and nothing
    below relies on a refusal being realistic. *)
Definition try_resize (w : World) (n : Z) : M bool := fun st =>
  let ok := resizeOk w (resizes st) in
  Ok (ok,
      {| depthMap := if ok then resize (Z.to_nat n) 0 (depthMap st)
                     else depthMap st;
         published := published st; cerr := cerr st;
         timeReads := timeReads st; resizes := S (resizes st) |}).

(** Lines 279-291: the size check and the guarded resize. The answer is
    [false] when the callback has to return. *)
Definition ensureCapacity (w : World) (n : Z) : M bool :=
  l <- get_depthMap ;;
  if Z.of_nat (length l) =? n then ret true
  else
    ok <- try_resize w n ;;
    if ok then ret true
    else
      log_cerr "RealSensePlugin: depthMap allocation failed: std::bad_alloc" ;;
      ret false.

(** Lines 311-326: [k] iterations of the loop from index [i] on. *)
Fixpoint convert (k i : nat) (src : list IEEE.float) (dst : list Z)
  : Res (list Z) :=
  match k with
  | O => Ok dst
  | S k' =>
      match src !! i with
      | None => Crash OutOfBounds
      | Some v =>
          match encode v with
          | Crash f => Crash f
          | Ok x =>
              if decide (i < length dst)%nat
              then convert k' (S i) src (<[i := x]> dst)
              else Crash OutOfBounds
          end
      end
  end.

Definition lift {A} (r : Res A) : M A := fun st =>
  match r with Ok a => Ok (a, st) | Crash f => Crash f end.

(** [set_data(p, 4 * n)] copies [n] floats from [p]. *)
Definition read_floats (n : Z) (src : list IEEE.float) : M Payload :=
  if decide (Z.to_nat n <= length src)%nat
  then ret (Floats (take (Z.to_nat n) src))
  else crash OutOfBounds.

(** [set_data(p, 2 * n)] copies [n] samples from [p]. *)
Definition read_depths (n : Z) (src : list Z) : M Payload :=
  if decide (Z.to_nat n <= length src)%nat
  then ret (Depths (take (Z.to_nat n) src))
  else crash OutOfBounds.

(** Lines 275-276: the [unsigned int] product of the two dimensions. *)
Definition imageSize (cam : DepthCamera) : Z :=
  u32 (ImageWidth cam * ImageHeight cam).

Arguments imageSize : simpl never.
Arguments u32 : simpl never.
Arguments usize : simpl never.

Definition OnNewDepthFrame (w : World) (cam : DepthCamera) : M unit :=
  (* Get Depth Map dimensions *)
  let imageSize := imageSize cam in
  (* Check if depthMap size is equivalent to imageSize *)
  ok <- ensureCapacity w imageSize ;;
  if negb ok then ret tt
  else
    (* Instantiate message *)
    let msg := new_msg in
    (* Pack viewable image message *)
    t <- simTime w ;;
    let msg := set_time t msg in
    let msg := set_width (ImageWidth cam) msg in
    let msg := set_height (ImageHeight cam) msg in
    let msg := set_pixel_format R_FLOAT32 msg in
    let msg := set_step (u32 (ImageWidth cam * ImageDepth cam)) msg in
    let depthDataFloat := DepthData cam in
    d <- read_floats imageSize depthDataFloat ;;
    let msg := set_data d (usize (4 * imageSize)) msg in
    (* Publish viewable image *)
    Publish depthViewPub msg ;;
    (* Convert Float depth data to RealSense depth data *)
    l <- get_depthMap ;;
    l' <- lift (convert (Z.to_nat imageSize) 0 depthDataFloat l) ;;
    put_depthMap l' ;;
    (* Pack realsense scaled depth map *)
    t <- simTime w ;;
    let msg := set_time t msg in
    let msg := set_width (ImageWidth cam) msg in
    let msg := set_height (ImageHeight cam) msg in
    let msg := set_pixel_format L_INT16 msg in
    let msg := set_step (u32 (ImageWidth cam * ImageDepth cam)) msg in
    l <- get_depthMap ;;
    d <- read_depths imageSize l ;;
    let msg := set_data d (usize (2 * imageSize)) msg in
    (* Publish realsense scaled depth map *)
    Publish depthPub msg.

Definition run {A} (c : M A) (st : Stream) : Res Stream :=
  match c st with Ok (_, st') => Ok st' | Crash f => Crash f end.

(** ** Setup: [RealSensePlugin::Load] *)

Module Setup.

(** A rendering camera, by the name it is known under. *)
Definition Camera : Type := string.

(** A sensor of the simulation: whether it is a
    [sensors::DepthCameraSensor], whether it is a [sensors::CameraSensor]
    (what the two [dynamic_pointer_cast]s test), and the renderer its
    [DepthCamera()] or [Camera()] answers, [None] for a null pointer. *)
Record Sensor := {
  isDepthCameraSensor : bool;
  isCameraSensor : bool;
  renderer : option Camera
}.

(** [SensorManager::GetSensor]: [None] is the null [SensorPtr] answered
    for a name that no sensor has. *)
Definition SensorManager : Type := string -> option Sensor.

Inductive Connection :=
| newDepthFrameConn | newIred1FrameConn | newIred2FrameConn
| newColorFrameConn | updateConnection.

(** [advertised] lists the publishers with their topics and
    [connections] the callbacks registered, both in the order made. *)
Record Plugin := {
  depthCam : option Camera;
  colorCam : option Camera;
  ired1Cam : option Camera;
  ired2Cam : option Camera;
  transportNode : option string;
  advertised : list (Publisher * string);
  connections : list Connection;
  cout : list string;
  cerr : list string
}.

Definition as_DepthCameraSensor (s : option Sensor) : option Sensor :=
  match s with
  | Some x => if isDepthCameraSensor x then Some x else None
  | None => None
  end.

Definition as_CameraSensor (s : option Sensor) : option Sensor :=
  match s with
  | Some x => if isCameraSensor x then Some x else None
  | None => None
  end.

(** [p->Camera()] through a sensor pointer that may be null. *)
Definition renderer_of (s : option Sensor) : Res (option Camera) :=
  match s with
  | Some x => Ok (renderer x)
  | None => Crash NullDeref
  end.

Definition and_then {A B} (r : Res A) (k : A -> Res B) : Res B :=
  match r with Ok a => k a | Crash f => Crash f end.

Definition is_null {A} (o : option A) : bool :=
  match o with Some _ => false | None => true end.

Definition Load (smanager : SensorManager) (modelName worldName : string)
  : Res Plugin :=
  (* Output the name of the model *)
  let out := ["RealSensePlugin: The rs_camera plugin is attach to model "
              ++ modelName]%string in
  (* Get Cameras Renderers *)
  and_then (renderer_of (as_DepthCameraSensor (smanager DEPTH_CAMERA_NAME)))
    (fun depth =>
  and_then (renderer_of (as_CameraSensor (smanager IRED1_CAMERA_NAME)))
    (fun ired1 =>
  and_then (renderer_of (as_CameraSensor (smanager IRED2_CAMERA_NAME)))
    (fun ired2 =>
  and_then (renderer_of (as_CameraSensor (smanager COLOR_CAMERA_NAME)))
    (fun color =>
  let stop (line : string) :=
    Ok {| depthCam := depth; colorCam := color;
          ired1Cam := ired1; ired2Cam := ired2;
          transportNode := None; advertised := []; connections := [];
          cout := out; cerr := [line] |} in
  (* Check if camera renderers have been found successfuly *)
  if is_null depth
  then stop "RealSensePlugin: Depth Camera has not been found"%string
  else if is_null ired1
  then stop "RealSensePlugin: InfraRed Camera 1 has not been found"%string
  else if is_null ired2
  then stop "RealSensePlugin: InfraRed Camera 2 has not been found"%string
  else if is_null color
  then stop "RealSensePlugin: Color Camera has not been found"%string
  else
    (* Setup Publishers *)
    let rsTopicRoot := ("~/" ++ modelName ++ "/rs/stream/")%string in
    Ok {| depthCam := depth; colorCam := color;
          ired1Cam := ired1; ired2Cam := ired2;
          transportNode := Some worldName;
          advertised :=
            [ (depthViewPub, (rsTopicRoot ++ DEPTH_CAMERA_TOPIC ++ "_view")%string);
              (depthPub, (rsTopicRoot ++ DEPTH_CAMERA_TOPIC)%string);
              (ired1Pub, (rsTopicRoot ++ IRED1_CAMERA_TOPIC)%string);
              (ired2Pub, (rsTopicRoot ++ IRED2_CAMERA_TOPIC)%string);
              (colorPub, (rsTopicRoot ++ COLOR_CAMERA_TOPIC)%string) ];
          connections :=
            [ newDepthFrameConn; newIred1FrameConn; newIred2FrameConn;
              newColorFrameConn; updateConnection ];
          cout := out; cerr := [] |})))).

(** No callback is registered: no frame will ever reach the plugin. *)
Definition unbound (p : Plugin) : Prop := connections p = [].

End Setup.

(** ** Reference functions and sample inputs for the statements below *)

(** The conversion of a whole map, sample by sample, stopping at the first
    sample whose conversion is undefined. *)
Fixpoint encode_all (l : list IEEE.float) : Res (list Z) :=
  match l with
  | [] => Ok []
  | v :: l' =>
      match encode v with
      | Crash f => Crash f
      | Ok x => match encode_all l' with
                | Crash f => Crash f
                | Ok xs => Ok (x :: xs)
                end
      end
  end.

(** A sample is out of range when one of the four tests of the loop holds. *)
Definition out_of_range (v : IEEE.float) : Prop :=
  IEEE.lt v (IEEE.float_of_Z 0) = true
  \/ IEEE.lt (IEEE.float_to_double v) DEPTH_NEAR_CLIP_M = true
  \/ IEEE.gt (IEEE.float_to_double v) DEPTH_FAR_CLIP_M = true
  \/ IEEE.gt (IEEE.float_to_double v) DEPTH_OVERFLOW_M = true.

(** A device depth sample: 0, or 300 to 10000 millimetres. *)
Definition device_depth (x : Z) : Prop := x = 0 \/ 300 <= x <= 10000.

(** The two messages of a depth frame, as they are when published. *)
Definition view_msg (t : Time) (cam : DepthCamera) : ImageStamped :=
  {| time := t; width := ImageWidth cam; height := ImageHeight cam;
     pixel_format := R_FLOAT32;
     step := u32 (ImageWidth cam * ImageDepth cam);
     data := Floats (take (Z.to_nat (imageSize cam)) (DepthData cam));
     data_size := usize (4 * imageSize cam) |}.

Definition device_msg (t : Time) (cam : DepthCamera) (buf : list Z)
  : ImageStamped :=
  {| time := t; width := ImageWidth cam; height := ImageHeight cam;
     pixel_format := L_INT16;
     step := u32 (ImageWidth cam * ImageDepth cam);
     data := Depths buf;
     data_size := usize (2 * imageSize cam) |}.

(** The scenario of the specification: a 2 x 2 depth camera with the
    [float]s nearest to 0.5, 11.0, -0.1 and 9.999, a clock that advances by
    one second at every reading, memory that is always granted, and the
    plugin before its first frame. *)
Definition camera_2x2 : DepthCamera :=
  {| ImageWidth := 2; ImageHeight := 2; ImageDepth := 4;
     DepthData := [IEEE.float_lit 5 10; IEEE.float_lit 110 10;
                   IEEE.float_lit (-1) 10; IEEE.float_lit 9999 1000] |}.

Definition ticking : World :=
  {| GetSimTime := fun k => {| sec := Z.of_nat k; nsec := 0 |};
     resizeOk := fun _ => true |}.

Definition fresh : Stream :=
  {| depthMap := []; published := []; cerr := []; timeReads := 0; resizes := 0 |}.

Definition after_2x2 : Stream :=
  Eval vm_compute in
    match run (OnNewDepthFrame ticking camera_2x2) fresh with
    | Ok st => st
    | Crash _ => fresh
    end.

(** The device depth buffer a run ends with. *)
Definition buffer_of (r : Res Stream) : Res (list Z) :=
  match r with Ok st => Ok (depthMap st) | Crash f => Crash f end.

(** A world whose first [resize] is refused and whose later ones are
    granted. *)
Definition starved : World :=
  {| GetSimTime := fun k => {| sec := Z.of_nat k; nsec := 0 |};
     resizeOk := fun k => negb (Nat.eqb k 0) |}.

(** Cameras at the edge of [unsigned int]: 65536 x 65536 pixels, whose
    product wraps to 0, with a buffer of all its samples or, for the
    second one, a pixel depth of 65538 bytes and the empty buffer that
    the wrapped product stands for; and a camera without pixels. *)
Definition camera_wide : DepthCamera :=
  {| ImageWidth := 65536; ImageHeight := 65536; ImageDepth := 4;
     DepthData := replicate (Z.to_nat (65536 * 65536)) (IEEE.zero false) |}.

Definition camera_wrap : DepthCamera :=
  {| ImageWidth := 65536; ImageHeight := 65536; ImageDepth := 65538;
     DepthData := [] |}.

Definition camera_0x0 : DepthCamera :=
  {| ImageWidth := 0; ImageHeight := 0; ImageDepth := 4; DepthData := [] |}.

(** A simulation in which the depth and the two infrared sensors exist and
    have a renderer, and no sensor is named "color". *)
Definition no_color_sensor : Setup.SensorManager := fun name =>
  if String.eqb name DEPTH_CAMERA_NAME then
    Some {| Setup.isDepthCameraSensor := true; Setup.isCameraSensor := true;
            Setup.renderer := Some "depth"%string |}
  else if String.eqb name IRED1_CAMERA_NAME then
    Some {| Setup.isDepthCameraSensor := false; Setup.isCameraSensor := true;
            Setup.renderer := Some "ired1"%string |}
  else if String.eqb name IRED2_CAMERA_NAME then
    Some {| Setup.isDepthCameraSensor := false; Setup.isCameraSensor := true;
            Setup.renderer := Some "ired2"%string |}
  else None.

(** ** The depth stream over the frames of a run *)

(** The depth callback once per frame, in order; [cams] holds what the
    depth camera answers at each frame. The plugin starts from [fresh]:
    an empty [depthMap], nothing published. *)
Fixpoint frames (w : World) (cams : list DepthCamera) (st : Stream)
  : Res Stream :=
  match cams with
  | [] => Ok st
  | cam :: cams' =>
      match run (OnNewDepthFrame w cam) st with
      | Ok st' => frames w cams' st'
      | Crash f => Crash f
      end
  end.

(** The stream a message of the depth callback belongs to, by its
    position in the order of publication. *)
Definition stream_at (k : nat) : Publisher * PixelFormat :=
  if Nat.even k then (depthViewPub, R_FLOAT32) else (depthPub, L_INT16).

Definition is_infinite (v : spec_float) : bool :=
  match v with S754_infinity _ => true | _ => false end.

(** ** The colour and infrared frames: [RealSensePlugin::OnNewFrame] *)

Module Raw.

(** What a colour or infrared camera renderer answers during one
    callback: three [unsigned int]s, the name of its format, and its
    image buffer. *)
Record Camera := {
  ImageWidth : Z;
  ImageHeight : Z;
  ImageDepth : Z;
  ImageFormat : string;
  ImageData : list Byte.byte
}.

(** [msgs::ImageStamped] as [OnNewFrame] fills it: [pixel_format] is the
    number that [common::Image::ConvertPixelFormat] answers, [data] the
    bytes copied by [set_data]. *)
Record Image := {
  time : Time;
  width : Z;
  height : Z;
  pixel_format : Z;
  step : Z;
  data : list Byte.byte
}.

(** The messages handed to [Publish], oldest first, and the number of
    [GetSimTime] calls made. *)
Record Feed := {
  sent : list (Publisher * Image);
  clockReads : nat
}.

(** [ConvertPixelFormat] is Gazebo's; it is taken as it comes. *)
Definition OnNewFrame (ConvertPixelFormat : string -> Z) (w : World)
    (cam : Camera) (pub : Publisher) (fd : Feed) : Res Feed :=
  (* Set Simulation Time *)
  let t := GetSimTime w (clockReads fd) in
  (* Set Image Data: Depth * Width * Height bytes, in [unsigned int] *)
  let n := u32 (u32 (ImageDepth cam * ImageWidth cam) * ImageHeight cam) in
  if decide (Z.to_nat n <= length (ImageData cam))%nat then
    let msg :=
      {| time := t;
         (* Set Image Dimensions *)
         width := ImageWidth cam;
         height := ImageHeight cam;
         (* Set Image Pixel Format *)
         pixel_format := ConvertPixelFormat (ImageFormat cam);
         step := u32 (ImageWidth cam * ImageDepth cam);
         data := take (Z.to_nat n) (ImageData cam) |} in
    (* Publish realsense infrared stream *)
    Ok {| sent := sent fd ++ [(pub, msg)]; clockReads := S (clockReads fd) |}
  else Crash OutOfBounds.

End Raw.

(** A camera of 2 x 1 pixels of 3 bytes, and a feed before its first
    frame. *)
Definition rgb_2x1 : Raw.Camera :=
  {| Raw.ImageWidth := 2; Raw.ImageHeight := 1; Raw.ImageDepth := 3;
     Raw.ImageFormat := "R8G8B8";
     Raw.ImageData := [Byte.x01; Byte.x02; Byte.x03;
                       Byte.x04; Byte.x05; Byte.x06] |}.

Definition no_feed : Raw.Feed := {| Raw.sent := []; Raw.clockReads := 0 |}.

(** Simulations with the four sensors: in the first every sensor has its
    renderer; in the second the two infrared sensors have none. *)
Definition full_rig : Setup.SensorManager := fun name =>
  if String.eqb name DEPTH_CAMERA_NAME then
    Some {| Setup.isDepthCameraSensor := true; Setup.isCameraSensor := true;
            Setup.renderer := Some "depth"%string |}
  else if String.eqb name IRED1_CAMERA_NAME then
    Some {| Setup.isDepthCameraSensor := false; Setup.isCameraSensor := true;
            Setup.renderer := Some "ired1"%string |}
  else if String.eqb name IRED2_CAMERA_NAME then
    Some {| Setup.isDepthCameraSensor := false; Setup.isCameraSensor := true;
            Setup.renderer := Some "ired2"%string |}
  else if String.eqb name COLOR_CAMERA_NAME then
    Some {| Setup.isDepthCameraSensor := false; Setup.isCameraSensor := true;
            Setup.renderer := Some "color"%string |}
  else None.

Definition infrared_not_rendered : Setup.SensorManager := fun name =>
  if String.eqb name DEPTH_CAMERA_NAME then
    Some {| Setup.isDepthCameraSensor := true; Setup.isCameraSensor := true;
            Setup.renderer := Some "depth"%string |}
  else if String.eqb name IRED1_CAMERA_NAME then
    Some {| Setup.isDepthCameraSensor := false; Setup.isCameraSensor := true;
            Setup.renderer := None |}
  else if String.eqb name IRED2_CAMERA_NAME then
    Some {| Setup.isDepthCameraSensor := false; Setup.isCameraSensor := true;
            Setup.renderer := None |}
  else if String.eqb name COLOR_CAMERA_NAME then
    Some {| Setup.isDepthCameraSensor := false; Setup.isCameraSensor := true;
            Setup.renderer := Some "color"%string |}
  else None.

(** A run of two frames of the 2 x 2 camera in the world whose first
    [resize] is refused: the first frame is skipped, the second encoded. *)
Definition after_two_frames : Stream :=
  Eval vm_compute in
    match frames starved [camera_2x2; camera_2x2] fresh with
    | Ok st => st
    | Crash _ => fresh
    end.

(** The plugin as its constructor leaves it (lines 125-132): the four
    renderers null, and nothing set up. *)
Definition constructed : Setup.Plugin :=
  {| Setup.depthCam := None; Setup.colorCam := None;
     Setup.ired1Cam := None; Setup.ired2Cam := None;
     Setup.transportNode := None; Setup.advertised := [];
     Setup.connections := []; Setup.cout := []; Setup.cerr := [] |}.

(** The plugin after [Load] in the simulation with the full rig. *)
Definition loaded : Setup.Plugin :=
  Eval vm_compute in
    match Setup.Load full_rig "rs_camera" "default" with
    | Ok p => p
    | Crash _ => constructed
    end.


Definition rgb_only : string -> Z := fun format =>
  if String.eqb format "R8G8B8" then 3 else 0.

(** * Properties *)

(** ** The IEEE model *)

Section Digits.

Lemma digits2_pos_bounds (p : positive) :
  2 ^ (Zpos (digits2_pos p) - 1) <= Zpos p < 2 ^ Zpos (digits2_pos p).
Proof.
  induction p as [p IH | p IH |]; cbn [digits2_pos].
  - rewrite Pos2Z.inj_succ.
    replace (Z.succ (Zpos (digits2_pos p)) - 1)
      with (Z.succ (Zpos (digits2_pos p) - 1)) by lia.
    rewrite !Z.pow_succ_r by lia. lia.
  - rewrite Pos2Z.inj_succ.
    replace (Z.succ (Zpos (digits2_pos p)) - 1)
      with (Z.succ (Zpos (digits2_pos p) - 1)) by lia.
    rewrite !Z.pow_succ_r by lia. lia.
  - vm_compute. split; [discriminate | reflexivity].
Qed.

Lemma digits2_pos_unique (p : positive) (d : Z) :
  2 ^ (d - 1) <= Zpos p < 2 ^ d -> Zpos (digits2_pos p) = d.
Proof.
  intros [Hlo Hhi].
  pose proof (digits2_pos_bounds p) as [Glo Ghi].
  assert (0 < d).
  { destruct (Z.ltb_spec 0 d) as [|Hd]; [done|].
    assert (2 ^ d <= 2 ^ 0) by (apply Z.pow_le_mono_r; lia).
    change (2 ^ 0) with 1 in *. lia. }
  destruct (Z.lt_trichotomy (Zpos (digits2_pos p)) d) as [Hlt | [Heq | Hgt]].
  - assert (2 ^ Zpos (digits2_pos p) <= 2 ^ (d - 1))
      by (apply Z.pow_le_mono_r; lia). lia.
  - done.
  - assert (2 ^ d <= 2 ^ (Zpos (digits2_pos p) - 1))
      by (apply Z.pow_le_mono_r; lia). lia.
Qed.

Lemma iter_xO_pow (m d : positive) :
  Zpos (Pos.iter xO m d) = Zpos m * 2 ^ Zpos d.
Proof.
  induction d as [|d IH] using Pos.peano_ind.
  - cbn. lia.
  - rewrite Pos.iter_succ, Pos2Z.inj_succ, Z.pow_succ_r by lia.
    change (Zpos (Pos.iter xO m d)~0) with (2 * Zpos (Pos.iter xO m d)). lia.
Qed.

Lemma fexp64_normal (x : Z) :
  -1021 <= x -> fexp IEEE.prec64 IEEE.emax64 x = x - 53.
Proof. unfold fexp, emin, IEEE.prec64, IEEE.emax64. lia. Qed.

End Digits.

Ltac pow2 :=
  change (2 ^ 19) with 524288 in *; change (2 ^ 20) with 1048576 in *;
  change (2 ^ 23) with 8388608 in *; change (2 ^ 24) with 16777216 in *;
  change (2 ^ 29) with 536870912 in *; change (2 ^ 33) with 8589934592 in *;
  change (2 ^ (53 - 1)) with 4503599627370496 in *;
  change (2 ^ 53) with 9007199254740992 in *;
  change (2 ^ (54 - 1)) with 9007199254740992 in *;
  change (2 ^ 54) with 18014398509481984 in *.

Section Promotion.

(** A [float] converts to the [double] of the same value: the mantissa
    is shifted up to 53 digits. *)
Lemma float_to_double_finite (s : bool) (m : positive) (e : Z) :
  bounded IEEE.prec32 IEEE.emax32 m e = true ->
  exists md : positive,
    IEEE.float_to_double (S754_finite s m e)
      = S754_finite s md (e + Zpos (digits2_pos m) - 53)
    /\ Zpos md = Zpos m * 2 ^ (53 - Zpos (digits2_pos m))
    /\ Zpos (digits2_pos md) = 53.
Proof.
  unfold bounded, canonical_mantissa, fexp, emin, IEEE.prec32, IEEE.emax32.
  intros [Hc He]%andb_prop. apply Z.eqb_eq in Hc. apply Z.leb_le in He.
  set (g := Zpos (digits2_pos m)) in *.
  assert (0 < g <= 24) as Hg by (subst g; lia).
  cbn [IEEE.float_to_double].
  unfold binary_round, shl_align, fexp, emin, IEEE.prec64, IEEE.emax64.
  fold g.
  replace (Z.max (g + e - 53) (3 - 1024 - 53) - e) with (g - 53) by lia.
  replace (Z.max (g + e - 53) (3 - 1024 - 53)) with (e + g - 53) by lia.
  destruct (g - 53) as [|d|d] eqn:Hd; [lia | lia |].
  set (md := Pos.iter xO m d).
  assert (Zpos md = Zpos m * 2 ^ (53 - g)) as Hmd.
  { subst md. rewrite iter_xO_pow. f_equal. f_equal. lia. }
  assert (Zpos (digits2_pos md) = 53) as Hdig.
  { apply digits2_pos_unique. rewrite Hmd.
    pose proof (digits2_pos_bounds m) as [Hlo Hhi]. fold g in Hlo, Hhi.
    assert (0 < 2 ^ (53 - g)) by (apply Z.pow_pos_nonneg; lia).
    assert (2 ^ (53 - 1) = 2 ^ (g - 1) * 2 ^ (53 - g)) as ->
      by (rewrite <- Z.pow_add_r by lia; f_equal; lia).
    assert (2 ^ 53 = 2 ^ g * 2 ^ (53 - g)) as ->
      by (rewrite <- Z.pow_add_r by lia; f_equal; lia).
    split; [apply Z.mul_le_mono_nonneg_r | apply Z.mul_lt_mono_pos_r]; lia. }
  exists md. split; [|done].
  unfold binary_round_aux, shr_fexp, fexp, emin. cbn [Zdigits2].
  rewrite Hdig.
  replace (Z.max (53 + (e + g - 53) - 53) (3 - 1024 - 53) - (e + g - 53))
    with 0 by lia.
  cbn [shr shr_record_of_loc shr_m loc_of_shr_record round_nearest_even Zdigits2].
  rewrite Hdig.
  replace (Z.max (53 + (e + g - 53) - 53) (3 - 1024 - 53) - (e + g - 53))
    with 0 by lia.
  cbn [shr shr_record_of_loc shr_m].
  replace (e + g - 53 <=? 1024 - 53) with true by (symmetry; apply Z.leb_le; lia).
  done.
Qed.

Lemma SFltb_pos_false (m1 : positive) (e1 : Z) (m2 : positive) (e2 : Z) :
  SFltb (S754_finite false m1 e1) (S754_finite false m2 e2) = false ->
  e2 < e1 \/ (e1 = e2 /\ Zpos m2 <= Zpos m1).
Proof.
  unfold SFltb, SFcompare.
  destruct (Z.compare_spec e1 e2) as [He | He | He]; [| discriminate | lia].
  change (Pos.compare_cont Eq m1 m2) with (Pos.compare m1 m2).
  destruct (Pos.compare_spec m1 m2); [lia | discriminate | lia].
Qed.

Lemma SFltb_pos_true (m1 : positive) (e1 : Z) (m2 : positive) (e2 : Z) :
  SFltb (S754_finite false m1 e1) (S754_finite false m2 e2) = true ->
  e1 < e2 \/ (e1 = e2 /\ Zpos m1 < Zpos m2).
Proof.
  unfold SFltb, SFcompare.
  destruct (Z.compare_spec e1 e2) as [He | He | He]; [| lia | discriminate].
  change (Pos.compare_cont Eq m1 m2) with (Pos.compare m1 m2).
  destruct (Pos.compare_spec m1 m2); [discriminate | lia | discriminate].
Qed.

End Promotion.

Section Constants.

Lemma NEAR_bits :
  DEPTH_NEAR_CLIP_M = S754_finite false 5404319552844595 (-54).
Proof. vm_compute. reflexivity. Qed.

Lemma FAR_bits :
  DEPTH_FAR_CLIP_M = S754_finite false 5629499534213120 (-49).
Proof. vm_compute. reflexivity. Qed.

Lemma OVERFLOW_bits :
  DEPTH_OVERFLOW_M = S754_finite false 4611615649683210 (-46).
Proof. vm_compute. reflexivity. Qed.

Lemma SCALE_bits :
  DEPTH_SCALE_M = S754_finite false 4611686018427388 (-62).
Proof. vm_compute. reflexivity. Qed.

End Constants.

(** ** The division by [DEPTH_SCALE_M] *)

Section Division.

(** The quotient of a [float] of [0.25 .. 16) by [DEPTH_SCALE_M], before
    rounding: one below [1000 * m * 2^20], and more than half a unit
    away from it. *)
Lemma div_core_scale (md : positive) (ed m : Z) :
  Zpos md = m * 2 ^ 29 -> 2 ^ 23 <= m < 2 ^ 24 -> -54 <= ed <= -49 ->
  SFdiv_core_binary IEEE.prec64 IEEE.emax64 (Zpos md) ed 4611686018427388 (-62)
  = (1000 * m * 2 ^ 20 - 1, ed + 9, loc_Inexact Gt).
Proof.
  intros Hmd Hm Hed. pow2.
  assert (Zpos (digits2_pos md) = 53) as Hdig
    by (apply digits2_pos_unique; pow2; lia).
  unfold SFdiv_core_binary. cbn [Zdigits2]. rewrite Hdig.
  change (Zpos (digits2_pos 4611686018427388)) with 53.
  rewrite fexp64_normal by lia.
  rewrite Z.min_l by lia.
  replace (ed - -62 - (53 + ed - (53 + -62) - 53)) with 53 by lia.
  replace (53 + ed - (53 + -62) - 53) with (ed + 9) by lia.
  rewrite Z.shiftl_mul_pow2 by lia. pow2.
  set (q := 1000 * m * 1048576 - 1).
  set (r := 4611686018427388 - 96 * m * 1048576).
  assert (Z.div_eucl (Zpos md * 9007199254740992) 4611686018427388 = (q, r))
    as ->.
  { pose proof (Z_div_mod (Zpos md * 9007199254740992) 4611686018427388 eq_refl)
      as H.
    destruct (Z.div_eucl _ _) as [q' r']. destruct H as [H1 H2].
    assert (q' = q /\ r' = r) as [-> ->]; [|done].
    subst q r. nia. }
  f_equal.
  unfold new_location. change (Z.even 4611686018427388) with true. cbv iota.
  unfold new_location_even.
  replace (r =? 0) with false by (symmetry; apply Z.eqb_neq; subst r; lia).
  f_equal. apply Z.compare_gt_iff. subst r. lia.
Qed.

(** Rounding that quotient when it has 53 digits: one unit up. *)
Lemma round_quotient_53 (m e : Z) :
  2 ^ 23 <= m -> 1000 * m < 2 ^ 33 -> -1000 <= e <= 900 ->
  binary_round_aux IEEE.prec64 IEEE.emax64 false
    (1000 * m * 2 ^ 20 - 1) e (loc_Inexact Gt)
  = S754_finite false (Z.to_pos (1000 * m * 2 ^ 20)) e.
Proof.
  intros Hlo Hhi He. pow2.
  set (q := Z.to_pos (1000 * m * 1048576 - 1)).
  set (q1 := Z.to_pos (1000 * m * 1048576)).
  assert (Zpos q = 1000 * m * 1048576 - 1) as Hq by (subst q; lia).
  assert (Zpos q1 = 1000 * m * 1048576) as Hq1 by (subst q1; lia).
  rewrite <- Hq.
  assert (Zpos (digits2_pos q) = 53) as Dq
    by (apply digits2_pos_unique; pow2; lia).
  assert (Zpos (digits2_pos q1) = 53) as Dq1
    by (apply digits2_pos_unique; pow2; lia).
  unfold binary_round_aux, shr_fexp. cbn [Zdigits2]. rewrite Dq.
  rewrite fexp64_normal by lia.
  replace (53 + e - 53 - e) with 0 by lia.
  cbn [shr shr_record_of_loc shr_m loc_of_shr_record round_nearest_even].
  replace (Zpos q + 1) with (Zpos q1) by lia.
  cbn [Zdigits2]. rewrite Dq1, fexp64_normal by lia.
  replace (53 + e - 53 - e) with 0 by lia.
  cbn [shr shr_record_of_loc shr_m].
  replace (e <=? IEEE.emax64 - IEEE.prec64) with true
    by (symmetry; apply Z.leb_le; unfold IEEE.emax64, IEEE.prec64; lia).
  done.
Qed.

(** With 54 digits: the last digit is shifted out, then one unit up. *)
Lemma round_quotient_54 (m e : Z) :
  2 ^ 33 <= 1000 * m -> m < 2 ^ 24 -> -1000 <= e <= 900 ->
  binary_round_aux IEEE.prec64 IEEE.emax64 false
    (1000 * m * 2 ^ 20 - 1) e (loc_Inexact Gt)
  = S754_finite false (Z.to_pos (1000 * m * 2 ^ 19)) (e + 1).
Proof.
  intros Hlo Hhi He. pow2.
  set (p := Z.to_pos (1000 * m * 524288 - 1)).
  set (q1 := Z.to_pos (1000 * m * 524288)).
  assert (Zpos p~1 = 1000 * m * 1048576 - 1) as Hq by (subst p; lia).
  assert (Zpos q1 = 1000 * m * 524288) as Hq1 by (subst q1; lia).
  rewrite <- Hq.
  assert (Zpos (digits2_pos p~1) = 54) as Dq
    by (apply digits2_pos_unique; pow2; lia).
  assert (Zpos (digits2_pos q1) = 53) as Dq1
    by (apply digits2_pos_unique; pow2; lia).
  unfold binary_round_aux, shr_fexp. cbn [Zdigits2]. rewrite Dq.
  rewrite fexp64_normal by lia.
  replace (54 + e - 53 - e) with 1 by lia.
  cbn [shr SpecFloat.iter_pos shr_1 shr_record_of_loc shr_m loc_of_shr_record
       round_nearest_even orb].
  replace (Zpos p + 1) with (Zpos q1) by lia.
  cbn [Zdigits2]. rewrite Dq1, fexp64_normal by lia.
  replace (53 + (e + 1) - 53 - (e + 1)) with 0 by lia.
  cbn [shr shr_record_of_loc shr_m].
  replace (e + 1 <=? IEEE.emax64 - IEEE.prec64) with true
    by (symmetry; apply Z.leb_le; unfold IEEE.emax64, IEEE.prec64; lia).
  done.
Qed.

End Division.

Section Cast.

Ltac norm_sum :=
  repeat match goal with
    | |- context [Zneg ?a + Zpos ?b] =>
        let x := eval vm_compute in (Zneg a + Zpos b) in
        change (Zneg a + Zpos b) with x
    | |- context [- Zneg ?a] =>
        change (- Zneg a) with (Zpos a)
    end.

Ltac norm_pow :=
  repeat match goal with
    | |- context [2 ^ Zpos ?k] =>
        let x := eval vm_compute in (2 ^ Zpos k) in
        change (2 ^ Zpos k) with x
    end.

Ltac by_division := Z.div_mod_to_equations; lia.

Ltac cast_in_range :=
  norm_sum; cbv beta iota zeta; norm_pow;
  match goal with
  | |- (if ?c then _ else _) = _ =>
      replace c with true
        by (symmetry; apply andb_true_intro; split; apply Z.leb_le;
            by_division)
  end;
  f_equal; by_division.

(** The quotient converts to [1000 * m * 2^e] with its fraction
    discarded, [m * 2^e] being the [float], and that is below 2^16. *)
Lemma cast_quotient (md : positive) (ed m : Z) :
  Zpos md = m * 2 ^ 29 -> 2 ^ 23 <= m < 2 ^ 24 -> -54 <= ed <= -49 ->
  IEEE.to_uint16 (IEEE.ddiv (S754_finite false md ed) DEPTH_SCALE_M)
  = Some (1000 * m / 2 ^ (- (ed + 29))).
Proof.
  intros Hmd Hm Hed.
  rewrite SCALE_bits. unfold IEEE.ddiv. cbn [SFdiv].
  rewrite (div_core_scale md ed m Hmd Hm Hed). cbn [xorb].
  assert (ed = -54 \/ ed = -53 \/ ed = -52 \/ ed = -51 \/ ed = -50 \/ ed = -49)
    as Hcases by lia.
  destruct (Z.lt_ge_cases (1000 * m) (2 ^ 33)) as [Hlt | Hge].
  - rewrite round_quotient_53 by lia.
    unfold IEEE.to_uint16, IEEE.truncate, UINT16_MAX. pow2.
    rewrite Z2Pos.id by lia.
    destruct Hcases as [-> | [-> | [-> | [-> | [-> | ->]]]]]; cast_in_range.
  - rewrite round_quotient_54 by lia.
    unfold IEEE.to_uint16, IEEE.truncate, UINT16_MAX. pow2.
    rewrite Z2Pos.id by lia.
    destruct Hcases as [-> | [-> | [-> | [-> | [-> | ->]]]]]; cast_in_range.
Qed.

End Cast.

(** ** One sample *)

Section Sample.

Lemma clipped_false (v : IEEE.float) :
  clipped v = false ->
  IEEE.lt (IEEE.float_to_double v) DEPTH_NEAR_CLIP_M = false
  /\ IEEE.gt (IEEE.float_to_double v) DEPTH_FAR_CLIP_M = false
  /\ IEEE.gt (IEEE.float_to_double v) DEPTH_OVERFLOW_M = false
  /\ IEEE.lt v (IEEE.float_of_Z 0) = false.
Proof.
  unfold clipped. intros H.
  apply orb_false_elim in H as [H H4].
  apply orb_false_elim in H as [H H3].
  apply orb_false_elim in H as [H1 H2]. auto.
Qed.

(** A sample that is not clipped and not NaN is a normal positive
    [float] of [0.25 .. 16), at least the first [float] above 0.3 and at
    most 10; its conversion is defined. *)
Lemma unclipped_shape (v : IEEE.float) :
  clipped v = false -> IEEE.is_nan v = false ->
  exists (m : positive) (e : Z),
    IEEE.bits v = S754_finite false m e
    /\ 2 ^ 23 <= Zpos m < 2 ^ 24 /\ -25 <= e <= -20
    /\ (e = -25 -> 10066330 <= Zpos m)
    /\ (e = -20 -> Zpos m <= 10485760)
    /\ encode v = Ok (1000 * Zpos m / 2 ^ (- e)).
Proof.
  intros Hc Hn. unfold encode. rewrite Hc.
  apply clipped_false in Hc as (H1 & H2 & _ & _).
  destruct v as [[s | s | | s m e] Hv]; cbn [IEEE.bits] in *.
  - destruct s; vm_compute in H1; discriminate.
  - destruct s; [vm_compute in H1 | vm_compute in H2]; discriminate.
  - discriminate.
  - cbn [valid_binary] in Hv.
    destruct (float_to_double_finite s m e Hv) as (md & Hd & Hmd & Hdig).
    rewrite Hd in *. rewrite NEAR_bits in H1. rewrite FAR_bits in H2.
    destruct s; [cbn in H1; discriminate|].
    apply SFltb_pos_false in H1. apply SFltb_pos_false in H2.
    unfold bounded, canonical_mantissa, fexp, emin, IEEE.prec32, IEEE.emax32
      in Hv.
    apply andb_prop in Hv as [Hcan _]. apply Z.eqb_eq in Hcan.
    pose proof (digits2_pos_bounds m) as Hm.
    set (g := Zpos (digits2_pos m)) in *.
    assert (g = 24) as Hg by lia. rewrite Hg in *.
    change (53 - 24) with 29 in Hmd. change (24 - 1) with 23 in Hm.
    exists m, e. split; [done|]. split; [done|].
    split; [lia|]. pow2.
    split; [lia|]. split; [lia|].
    rewrite (cast_quotient md (e + 24 - 53) (Zpos m)) by (pow2; lia).
    do 3 f_equal. lia.
Qed.

End Sample.

(** ** The loop *)

Section Loop.

Lemma encode_all_length (l : list IEEE.float) (ys : list Z) :
  encode_all l = Ok ys -> length ys = length l.
Proof.
  revert ys. induction l as [|v l IH]; intros ys; cbn [encode_all].
  - by intros [= <-].
  - destruct (encode v); [|discriminate].
    destruct (encode_all l) as [xs|]; [|discriminate].
    intros [= <-]. cbn. f_equal. by apply IH.
Qed.

(** [k] iterations from index [i] on, inside both buffers: the samples
    [i .. i+k) of the destination become the conversions of the same
    samples of the source; the loop touches nothing else, and does not
    depend on what the destination held there. *)
Lemma convert_window (k i : nat) (src : list IEEE.float) (dst : list Z) :
  (i + k <= length src)%nat -> (i + k <= length dst)%nat ->
  convert k i src dst =
    match encode_all (take k (drop i src)) with
    | Ok ys => Ok (take i dst ++ ys ++ drop (i + k) dst)
    | Crash f => Crash f
    end.
Proof.
  revert i dst. induction k as [|k IH]; intros i dst Hs Hd.
  - rewrite take_0, Nat.add_0_r. cbn [convert encode_all app].
    by rewrite take_drop.
  - cbn [convert].
    destruct (lookup_lt_is_Some_2 src i) as [v Hv]; [lia|].
    rewrite Hv. rewrite (drop_S _ _ _ Hv). cbn [take encode_all].
    destruct (encode v) as [x|f]; [|done].
    destruct (decide (i < length dst)%nat) as [Hi|]; [|lia].
    rewrite IH by (rewrite ?length_insert; lia).
    destruct (encode_all (take k (drop (S i) src))) as [ys|]; [|done].
    f_equal.
    rewrite drop_insert_lt by lia.
    destruct (lookup_lt_is_Some_2 dst i) as [y Hy]; [lia|].
    rewrite (take_S_r (<[i:=x]> dst) i x)
      by (by apply list_lookup_insert_eq).
    rewrite take_insert_ge by lia.
    rewrite <- app_assoc. cbn. by rewrite Nat.add_succ_r.
Qed.

(** The whole loop over a destination of [n] samples. *)
Lemma convert_all (n : nat) (src : list IEEE.float) (dst : list Z) :
  (n <= length src)%nat -> length dst = n ->
  convert n 0 src dst = encode_all (take n src).
Proof.
  intros Hs Hd. rewrite convert_window by (cbn; lia).
  rewrite drop_0, take_0, (drop_ge dst) by lia. cbn [app].
  destruct (encode_all (take n src)); [|done].
  by rewrite app_nil_r.
Qed.

End Loop.

(** ** The buffer check *)

Section Capacity.

Context (w : World) (n : Z) (st : Stream).

Lemma ensureCapacity_sized :
  Z.of_nat (length (depthMap st)) = n ->
  ensureCapacity w n st = Ok (true, st).
Proof.
  intros H. unfold ensureCapacity, bind, get_depthMap, ret.
  apply Z.eqb_eq in H. by rewrite H.
Qed.

Lemma ensureCapacity_resized :
  Z.of_nat (length (depthMap st)) <> n -> resizeOk w (resizes st) = true ->
  ensureCapacity w n st =
    Ok (true, {| depthMap := resize (Z.to_nat n) 0 (depthMap st);
                 published := published st; cerr := cerr st;
                 timeReads := timeReads st; resizes := S (resizes st) |}).
Proof.
  intros H Hok. unfold ensureCapacity, bind, get_depthMap, try_resize, ret.
  apply Z.eqb_neq in H. by rewrite H, Hok.
Qed.

Lemma ensureCapacity_failed :
  Z.of_nat (length (depthMap st)) <> n -> resizeOk w (resizes st) = false ->
  ensureCapacity w n st =
    Ok (false,
        {| depthMap := depthMap st; published := published st;
           cerr := cerr st ++
             ["RealSensePlugin: depthMap allocation failed: std::bad_alloc"%string];
           timeReads := timeReads st; resizes := S (resizes st) |}).
Proof.
  intros H Hok.
  unfold ensureCapacity, bind, get_depthMap, try_resize, log_cerr, ret.
  apply Z.eqb_neq in H. by rewrite H, Hok.
Qed.

(** Whatever happens, the check itself publishes nothing, reads no clock
    and has no undefined behaviour; when it answers [true] the buffer
    has [n] samples. *)
Lemma ensureCapacity_cases :
  0 <= n ->
  exists (ok : bool) (st1 : Stream),
    ensureCapacity w n st = Ok (ok, st1)
    /\ published st1 = published st /\ timeReads st1 = timeReads st
    /\ (ok = true -> Z.of_nat (length (depthMap st1)) = n)
    /\ (ok = false -> depthMap st1 = depthMap st
                      /\ Z.of_nat (length (depthMap st)) <> n
                      /\ resizeOk w (resizes st) = false).
Proof.
  intros Hn.
  destruct (decide (Z.of_nat (length (depthMap st)) = n)) as [Heq | Hne].
  - exists true, st. split; [by apply ensureCapacity_sized|]. naive_solver.
  - destruct (resizeOk w (resizes st)) eqn:Hok.
    + eexists true, _. split; [by apply ensureCapacity_resized|].
      cbn. rewrite length_resize. repeat split; try done; lia.
    + eexists false, _. split; [by apply ensureCapacity_failed|].
      cbn. naive_solver.
Qed.

End Capacity.

(** ** One depth frame *)

Section Frame.

Context (w : World) (cam : DepthCamera).

Lemma imageSize_range : 0 <= imageSize cam < 2 ^ 32.
Proof. unfold imageSize, u32. apply Z.mod_pos_bound. done. Qed.

(** The frame is dropped when the check answers [false]. *)
Lemma frame_skipped (st st1 : Stream) :
  ensureCapacity w (imageSize cam) st = Ok (false, st1) ->
  run (OnNewDepthFrame w cam) st = Ok st1.
Proof.
  intros H. unfold run, OnNewDepthFrame, bind at 1. by rewrite H.
Qed.

(** The frame goes through when the buffer has the size of the frame,
    the camera buffer holds the frame, and every conversion is defined. *)
Lemma frame_encoded (st st1 : Stream) (ys : list Z) :
  ensureCapacity w (imageSize cam) st = Ok (true, st1) ->
  Z.of_nat (length (depthMap st1)) = imageSize cam ->
  (Z.to_nat (imageSize cam) <= length (DepthData cam))%nat ->
  encode_all (take (Z.to_nat (imageSize cam)) (DepthData cam)) = Ok ys ->
  run (OnNewDepthFrame w cam) st =
    Ok {| depthMap := ys;
          published := published st1 ++
            [(depthViewPub, view_msg (GetSimTime w (timeReads st1)) cam);
             (depthPub, device_msg (GetSimTime w (S (timeReads st1))) cam ys)];
          cerr := cerr st1;
          timeReads := S (S (timeReads st1));
          resizes := resizes st1 |}.
Proof.
  intros Hcap Hlen Hsrc Henc.
  assert (length (depthMap st1) = Z.to_nat (imageSize cam)) as Hlen' by lia.
  unfold run, OnNewDepthFrame, bind at 1. rewrite Hcap. cbn [negb].
  unfold bind, simTime, read_floats, Publish, get_depthMap, lift,
    put_depthMap, read_depths, ret. cbn.
  destruct (decide (Z.to_nat (imageSize cam) <= length (DepthData cam))%nat);
    [|lia].
  cbn. rewrite convert_all by done. rewrite Henc. cbn.
  pose proof (encode_all_length _ _ Henc) as Hys.
  rewrite length_take in Hys.
  destruct (decide (Z.to_nat (imageSize cam) <= length ys)%nat); [|lia].
  cbn. rewrite (take_ge ys) by lia. rewrite <- app_assoc. done.
Qed.

(** A conversion without result is undefined behaviour of the frame. *)
Lemma frame_undefined (st st1 : Stream) (f : Fault) :
  ensureCapacity w (imageSize cam) st = Ok (true, st1) ->
  Z.of_nat (length (depthMap st1)) = imageSize cam ->
  (Z.to_nat (imageSize cam) <= length (DepthData cam))%nat ->
  encode_all (take (Z.to_nat (imageSize cam)) (DepthData cam)) = Crash f ->
  run (OnNewDepthFrame w cam) st = Crash f.
Proof.
  intros Hcap Hlen Hsrc Henc.
  assert (length (depthMap st1) = Z.to_nat (imageSize cam)) as Hlen' by lia.
  unfold run, OnNewDepthFrame, bind at 1. rewrite Hcap. cbn [negb].
  unfold bind, simTime, read_floats, Publish, get_depthMap, lift,
    put_depthMap, read_depths, ret. cbn.
  destruct (decide (Z.to_nat (imageSize cam) <= length (DepthData cam))%nat);
    [|lia].
  cbn. rewrite convert_all by done. by rewrite Henc.
Qed.

End Frame.

(** ** The depth encoder *)

Section Encoder.

(** For a normal [float] of [0.25 .. 16), dividing the exact value by
    the decimal 0.001 and rounding down gives [1000 * m * 2^e] rounded
    down. *)
Lemma floor_scaled (m : positive) (e : Z) (H : valid_binary IEEE.prec32 IEEE.emax32 (S754_finite false m e) = true) :
  -25 <= e <= -20 ->
  Qfloor (IEEE.to_Q (IEEE.mk_float (S754_finite false m e) H) / SCALE)
  = 1000 * Zpos m / 2 ^ (- e).
Proof.
  intros He.
  assert (e = -25 \/ e = -24 \/ e = -23 \/ e = -22 \/ e = -21 \/ e = -20)
    as Hcases by lia.
  destruct Hcases as [-> | [-> | [-> | [-> | [-> | ->]]]]];
    cbn [IEEE.bits IEEE.to_Q]; unfold SCALE, Qdiv, Qinv, Qmult, Qfloor;
    cbn [Qnum Qden];
    match goal with
    | |- context [Zpos (?a * 1)] =>
        let x := eval vm_compute in (Zpos (a * 1)) in
        change (Zpos (a * 1)) with x
    end;
    match goal with
    | |- context [2 ^ ?k] =>
        let x := eval vm_compute in (2 ^ k) in change (2 ^ k) with x
    end;
    Z.div_mod_to_equations; lia.
Qed.

Lemma scaled_range (m e : Z) :
  2 ^ 23 <= m < 2 ^ 24 -> -25 <= e <= -20 ->
  (e = -25 -> 10066330 <= m) -> (e = -20 -> m <= 10485760) ->
  300 <= 1000 * m / 2 ^ (- e) <= 10000.
Proof.
  intros Hm He Hlo Hhi. pow2.
  assert (e = -25 \/ e = -24 \/ e = -23 \/ e = -22 \/ e = -21 \/ e = -20)
    as Hcases by lia.
  destruct Hcases as [-> | [-> | [-> | [-> | [-> | ->]]]]];
    match goal with
    | |- context [2 ^ ?k] =>
        let x := eval vm_compute in (2 ^ k) in change (2 ^ k) with x
    end;
    Z.div_mod_to_equations; lia.
Qed.

Lemma clipped_out_of_range (v : IEEE.float) :
  clipped v = true <-> out_of_range v.
Proof.
  unfold clipped, out_of_range. rewrite !orb_true_iff. tauto.
Qed.

(** A sample that passes the four tests and is not NaN converts to
    [floor (v / SCALE)], which is a number of 300 to 10000. *)
Lemma encode_in_range (v : IEEE.float) :
  IEEE.is_nan v = false -> clipped v = false ->
  encode v = Ok (Qfloor (IEEE.to_Q v / SCALE))
  /\ 300 <= Qfloor (IEEE.to_Q v / SCALE) <= 10000.
Proof.
  intros Hn Hc.
  destruct (unclipped_shape v Hc Hn) as (m & e & Hb & Hm & He & Hlo & Hhi & Hv).
  pose proof (scaled_range (Zpos m) e Hm He Hlo Hhi) as Hr.
  destruct v as [x Hx]. cbn [IEEE.bits] in Hb. subst x.
  rewrite floor_scaled by exact He. auto.
Qed.

(** C1, amended. For every [float] sample [v] other than NaN: the
    encoder's output is 0 if and only if [v < 0], or [v < NEAR_CLIP], or
    [v > FAR_CLIP], or [v > SCALE * 65535]; otherwise the output is
    [floor (v / SCALE)], [v] taken exactly and [SCALE] as the decimal
    0.001; in both cases an output is produced, and no error. *)
Theorem encode_spec (v : IEEE.float) :
  IEEE.is_nan v = false ->
  (encode v = Ok 0 <-> out_of_range v)
  /\ (~ out_of_range v -> encode v = Ok (Qfloor (IEEE.to_Q v / SCALE)))
  /\ (exists x : Z, encode v = Ok x).
Proof.
  intros Hn. destruct (clipped v) eqn:Hc.
  - assert (encode v = Ok 0) as He by (unfold encode; by rewrite Hc).
    apply clipped_out_of_range in Hc.
    split; [tauto|]. split; [tauto|]. by exists 0.
  - assert (~ out_of_range v) as Hin
      by (rewrite <- clipped_out_of_range, Hc; discriminate).
    destruct (encode_in_range v Hn Hc) as [Hv Hr].
    split; [|split].
    + split; [|tauto]. intros H0.
      assert (Qfloor (IEEE.to_Q v / SCALE) = 0) as H1 by congruence.
      rewrite H1 in Hr. lia.
    + intros _. exact Hv.
    + eauto.
Qed.

(** C1 does not hold for every [float]: NaN fails each of the
    four tests, and its conversion to [uint16_t] has no defined result,
    so the output is neither 0 nor the floor of anything. *)
Lemma encode_nan_undefined :
  ~ out_of_range IEEE.nan
  /\ encode IEEE.nan = Crash BadCast
  /\ encode IEEE.nan <> Ok (Qfloor (IEEE.to_Q IEEE.nan / SCALE)).
Proof.
  split.
  - rewrite <- clipped_out_of_range. vm_compute. discriminate.
  - split; [vm_compute; reflexivity | vm_compute; discriminate].
Qed.

(** The samples of the specification. *)
Lemma encode_examples :
  encode (IEEE.float_lit 3 10) = Ok 300
  /\ encode (IEEE.float_lit 5 10000) = Ok 0
  /\ encode (IEEE.float_lit 10 1) = Ok 10000
  /\ encode (IEEE.float_lit 101 10) = Ok 0
  /\ encode (IEEE.float_lit (-1) 1) = Ok 0
  /\ encode (IEEE.infinity false) = Ok 0
  /\ encode (IEEE.infinity true) = Ok 0
  /\ encode (IEEE.zero false) = Ok 0.
Proof. repeat split; vm_compute; reflexivity. Qed.

Lemma encode_spec_half :
  IEEE.is_nan (IEEE.float_lit 5 10) = false
  /\ (encode (IEEE.float_lit 5 10) = Ok 0 <-> out_of_range (IEEE.float_lit 5 10))
  /\ (~ out_of_range (IEEE.float_lit 5 10) ->
      encode (IEEE.float_lit 5 10)
      = Ok (Qfloor (IEEE.to_Q (IEEE.float_lit 5 10) / SCALE)))
  /\ (exists x : Z, encode (IEEE.float_lit 5 10) = Ok x).
Proof.
  split; [reflexivity | apply (encode_spec (IEEE.float_lit 5 10)); reflexivity].
Defined.

End Encoder.

(** ** The device depth buffer after a frame *)

Section Invariant.

Lemma encode_nan (v : IEEE.float) :
  IEEE.is_nan v = true -> encode v = Crash BadCast.
Proof.
  destruct v as [[s | s | | s m e] Hv]; cbn; try discriminate.
  intros _. vm_compute. reflexivity.
Qed.

(** The conversion has no result for NaN only; a result is a device
    depth. *)
Lemma encode_cases (v : IEEE.float) :
  match encode v with
  | Ok x => IEEE.is_nan v = false /\ device_depth x
  | Crash f => IEEE.is_nan v = true /\ f = BadCast
  end.
Proof.
  destruct (IEEE.is_nan v) eqn:Hn.
  - by rewrite encode_nan.
  - destruct (clipped v) eqn:Hc.
    + unfold encode. rewrite Hc. split; [done | by left].
    + destruct (unclipped_shape v Hc Hn)
        as (m & e & Hb & Hm & He & Hlo & Hhi & Hv).
      rewrite Hv. split; [done|]. right.
      by apply scaled_range.
Qed.

Lemma encode_all_lookup (l : list IEEE.float) (ys : list Z) :
  encode_all l = Ok ys ->
  forall (i : nat) (x : Z),
    ys !! i = Some x -> exists v, l !! i = Some v /\ encode v = Ok x.
Proof.
  revert ys. induction l as [|v l IH]; intros ys; cbn [encode_all].
  - intros [= <-] i x Hi. by rewrite lookup_nil in Hi.
  - destruct (encode v) as [y|] eqn:Hv; [|discriminate].
    destruct (encode_all l) as [xs|]; [|discriminate].
    intros [= <-] [|i] x Hi; cbn in Hi.
    + injection Hi as ->. by exists v.
    + by apply (IH xs).
Qed.

Lemma frame_out_of_bounds (w : World) (cam : DepthCamera) (st st1 : Stream) :
  ensureCapacity w (imageSize cam) st = Ok (true, st1) ->
  ~ (Z.to_nat (imageSize cam) <= length (DepthData cam))%nat ->
  run (OnNewDepthFrame w cam) st = Crash OutOfBounds.
Proof.
  intros Hcap Hsrc.
  unfold run, OnNewDepthFrame, bind at 1. rewrite Hcap. cbn [negb].
  unfold bind, simTime, read_floats. cbn.
  by destruct (decide (Z.to_nat (imageSize cam) <= length (DepthData cam))%nat).
Qed.

(** Every way a depth frame can end. *)
Lemma frame_cases (w : World) (cam : DepthCamera) (st : Stream) :
  (exists st1, ensureCapacity w (imageSize cam) st = Ok (false, st1)
               /\ run (OnNewDepthFrame w cam) st = Ok st1
               /\ published st1 = published st
               /\ depthMap st1 = depthMap st)
  \/ (exists st1, ensureCapacity w (imageSize cam) st = Ok (true, st1)
        /\ published st1 = published st /\ timeReads st1 = timeReads st
        /\ Z.of_nat (length (depthMap st1)) = imageSize cam
        /\ ((~ (Z.to_nat (imageSize cam) <= length (DepthData cam))%nat
             /\ run (OnNewDepthFrame w cam) st = Crash OutOfBounds)
            \/ ((Z.to_nat (imageSize cam) <= length (DepthData cam))%nat
                /\ exists f,
                     encode_all (take (Z.to_nat (imageSize cam)) (DepthData cam))
                       = Crash f
                     /\ run (OnNewDepthFrame w cam) st = Crash f)
            \/ ((Z.to_nat (imageSize cam) <= length (DepthData cam))%nat
                /\ exists ys,
                     encode_all (take (Z.to_nat (imageSize cam)) (DepthData cam))
                       = Ok ys
                     /\ run (OnNewDepthFrame w cam) st =
                        Ok {| depthMap := ys;
                              published := published st1 ++
                                [(depthViewPub,
                                  view_msg (GetSimTime w (timeReads st1)) cam);
                                 (depthPub,
                                  device_msg (GetSimTime w (S (timeReads st1)))
                                    cam ys)];
                              cerr := cerr st1;
                              timeReads := S (S (timeReads st1));
                              resizes := resizes st1 |}))).
Proof.
  pose proof (imageSize_range cam) as Hp.
  destruct (ensureCapacity_cases w (imageSize cam) st)
    as (ok & st1 & Hcap & Hpub & Htime & Hlen & Hfail); [lia|].
  destruct ok.
  - right. exists st1. specialize (Hlen eq_refl).
    do 4 (split; [done|]).
    destruct (decide (Z.to_nat (imageSize cam) <= length (DepthData cam))%nat)
      as [Hsrc | Hsrc].
    + destruct (encode_all (take (Z.to_nat (imageSize cam)) (DepthData cam)))
        as [ys | f] eqn:Henc.
      * right; right. split; [done|]. exists ys. split; [done|].
        by apply (frame_encoded w cam st st1 ys).
      * right; left. split; [done|]. exists f. split; [done|].
        by apply (frame_undefined w cam st st1 f).
    + left. split; [done|]. by apply (frame_out_of_bounds w cam st st1).
  - left. exists st1. destruct (Hfail eq_refl) as (Hd & _ & _).
    split; [done|]. split; [by apply frame_skipped|]. by rewrite Hd.
Qed.

Lemma encode_all_defined (l : list IEEE.float) :
  Forall (fun v : IEEE.float => IEEE.is_nan v = false) l ->
  exists ys : list Z, encode_all l = Ok ys.
Proof.
  induction 1 as [|v l Hv _ [ys IH]]; cbn [encode_all]; [by eexists|].
  pose proof (encode_cases v) as Hc.
  destruct (encode v) as [x|f]; [|destruct Hc; congruence].
  rewrite IH. by eexists.
Qed.

(** C10. After the loop of any depth frame, every sample of the device
    depth buffer is 0 or lies in 300 to 10000: a sample other than 0 is
    the exact [floor (v / SCALE)] of a source sample [v] that passed the
    four tests, so the conversion to [uint16_t] never wraps around. The
    loop is reached and left by every frame whose resize does not fail,
    whose camera buffer holds the frame, and that has no NaN sample. *)
Theorem device_depth_invariant (w : World) (cam : DepthCamera) (st : Stream) :
  (forall st' : Stream,
      run (OnNewDepthFrame w cam) st = Ok st' ->
      published st' <> published st ->
      Forall device_depth (depthMap st')
      /\ forall (i : nat) (x : Z),
           depthMap st' !! i = Some x -> x <> 0 ->
           exists v : IEEE.float,
             DepthData cam !! i = Some v /\ ~ out_of_range v
             /\ x = Qfloor (IEEE.to_Q v / SCALE))
  /\ ((Z.to_nat (imageSize cam) <= length (DepthData cam))%nat ->
      Forall (fun v : IEEE.float => IEEE.is_nan v = false)
        (take (Z.to_nat (imageSize cam)) (DepthData cam)) ->
      exists st' : Stream,
        run (OnNewDepthFrame w cam) st = Ok st'
        /\ (Z.of_nat (length (depthMap st)) = imageSize cam
            \/ resizeOk w (resizes st) = true ->
            published st' <> published st)).
Proof.
  split.
  - intros st' Hrun Hpub.
    destruct (frame_cases w cam st)
      as [(st1 & _ & Hr & Hp & _)
         | (st1 & _ & Hp & _ & _ &
            [[_ Hr] | [(_ & f & _ & Hr) | (Hsrc & ys & Henc & Hr)]])];
      rewrite Hr in Hrun; try discriminate.
    + injection Hrun as <-. by rewrite Hp in Hpub.
    + injection Hrun as <-. cbn [depthMap].
      pose proof (encode_all_lookup _ _ Henc) as Hlook.
      split.
      * apply Forall_lookup. intros i x Hi.
        destruct (Hlook i x Hi) as (v & _ & Hv).
        pose proof (encode_cases v) as Hc. rewrite Hv in Hc. tauto.
      * intros i x Hi Hx.
        destruct (Hlook i x Hi) as (v & Hsv & Hv).
        apply lookup_take_Some in Hsv as [Hsv _].
        pose proof (encode_cases v) as Hc. rewrite Hv in Hc.
        destruct Hc as [Hn _].
        assert (clipped v = false) as Hcl.
        { destruct (clipped v) eqn:Hcl; [|done].
          unfold encode in Hv. rewrite Hcl in Hv. by injection Hv. }
        destruct (encode_in_range v Hn Hcl) as [Hfloor _].
        exists v. split; [done|].
        split; [rewrite <- clipped_out_of_range, Hcl; discriminate|].
        rewrite Hv in Hfloor. by injection Hfloor.
  - intros Hsrc Hnan.
    destruct (encode_all_defined _ Hnan) as [ys Henc].
    destruct (frame_cases w cam st)
      as [(st1 & Hcap & Hr & Hp & _)
         | (st1 & _ & Hp & _ & _ &
            [[Hno _] | [(_ & f & Hf & _) | (_ & ys' & _ & Hr)]])];
      [| done | congruence |].
    + exists st1. split; [done|]. intros Hmem.
      destruct (ensureCapacity_cases w (imageSize cam) st)
        as (ok & st2 & H1 & _ & _ & _ & H5);
        [pose proof (imageSize_range cam); lia|].
      rewrite H1 in Hcap. injection Hcap as -> ->.
      destruct (H5 eq_refl) as (_ & Hne & Hfail).
      destruct Hmem; congruence.
    + eexists. split; [exact Hr|]. intros _. cbn [published]. rewrite Hp.
      intros Heq. apply (f_equal length) in Heq.
      rewrite length_app in Heq. cbn in Heq. lia.
Qed.

Lemma device_depth_invariant_2x2 :
  Forall device_depth (depthMap after_2x2)
  /\ forall (i : nat) (x : Z),
       depthMap after_2x2 !! i = Some x -> x <> 0 ->
       exists v : IEEE.float,
         DepthData camera_2x2 !! i = Some v /\ ~ out_of_range v
         /\ x = Qfloor (IEEE.to_Q v / SCALE).
Proof.
  apply (device_depth_invariant ticking camera_2x2 fresh);
    [vm_compute; reflexivity | discriminate].
Defined.

End Invariant.

(** ** The specification's scenario, and the time stamps *)

Section Scenario.

Lemma encoded_split (w : World) (cam : DepthCamera) (st st' : Stream)
    (v d : ImageStamped) :
  run (OnNewDepthFrame w cam) st = Ok st' ->
  published st' = published st ++ [(depthViewPub, v); (depthPub, d)] ->
  exists ys,
    st' = {| depthMap := ys;
             published := published st ++ [(depthViewPub, v); (depthPub, d)];
             cerr := cerr st'; timeReads := S (S (timeReads st));
             resizes := resizes st' |}
    /\ encode_all (take (Z.to_nat (imageSize cam)) (DepthData cam)) = Ok ys
    /\ Z.of_nat (length ys) = imageSize cam
    /\ v = view_msg (GetSimTime w (timeReads st)) cam
    /\ d = device_msg (GetSimTime w (S (timeReads st))) cam ys.
Proof.
  intros Hrun Hpub.
  destruct (frame_cases w cam st)
    as [(st1 & _ & Hr & Hp & _)
       | (st1 & _ & Hp & Ht & _ &
          [[_ Hr] | [(_ & f & _ & Hr) | (Hsrc & ys & Henc & Hr)]])];
    rewrite Hr in Hrun; try discriminate.
  - injection Hrun as <-. rewrite Hp in Hpub.
    apply (f_equal length) in Hpub. rewrite length_app in Hpub.
    cbn in Hpub. lia.
  - injection Hrun as <-. cbn [published] in Hpub. rewrite Hp in Hpub.
    apply app_inv_head in Hpub. injection Hpub as <- <-.
    exists ys. cbn. rewrite Hp, Ht.
    pose proof (encode_all_length _ _ Henc) as Hys.
    rewrite length_take in Hys. pose proof (imageSize_range cam).
    repeat split; try done. lia.
Qed.

(** C5, amended. Within one depth frame the simulation time is read
    twice: the view message carries the first reading and the device
    message the second, so the two time stamps are the same exactly
    when the clock answers the same time at both readings. *)
Theorem frame_time_stamps (w : World) (cam : DepthCamera) (st st' : Stream)
    (v d : ImageStamped) :
  run (OnNewDepthFrame w cam) st = Ok st' ->
  published st' = published st ++ [(depthViewPub, v); (depthPub, d)] ->
  time v = GetSimTime w (timeReads st)
  /\ time d = GetSimTime w (S (timeReads st))
  /\ timeReads st' = S (S (timeReads st))
  /\ (time v = time d <->
      GetSimTime w (timeReads st) = GetSimTime w (S (timeReads st))).
Proof.
  intros Hrun Hpub.
  destruct (encoded_split w cam st st' v d Hrun Hpub)
    as (ys & -> & _ & _ & -> & ->).
  cbn. done.
Qed.

(** C5 as stated does not hold: with a clock that advances between the
    two readings, the two messages of one frame carry different time
    stamps. *)
Lemma time_is_read_twice :
  exists (v d : ImageStamped),
    run (OnNewDepthFrame ticking camera_2x2) fresh = Ok after_2x2
    /\ published after_2x2 = [(depthViewPub, v); (depthPub, d)]
    /\ time v = {| sec := 0; nsec := 0 |}
    /\ time d = {| sec := 1; nsec := 0 |}
    /\ time v <> time d.
Proof.
  eexists _, _. split; [vm_compute; reflexivity|].
  split; [vm_compute; reflexivity|]. cbn. done.
Qed.

Lemma frame_time_stamps_2x2 :
  exists (v d : ImageStamped),
    published after_2x2 = published fresh ++ [(depthViewPub, v); (depthPub, d)]
    /\ time v = GetSimTime ticking (timeReads fresh)
    /\ time d = GetSimTime ticking (S (timeReads fresh))
    /\ timeReads after_2x2 = S (S (timeReads fresh))
    /\ (time v = time d <->
        GetSimTime ticking (timeReads fresh)
        = GetSimTime ticking (S (timeReads fresh))).
Proof.
  eexists _, _. split; [vm_compute; reflexivity|].
  apply (frame_time_stamps ticking camera_2x2 fresh after_2x2);
    vm_compute; reflexivity.
Defined.

(** C2, amended. With a 2 x 2 depth camera and the depth map
    [0.5, 11.0, -0.1, 9.999], one depth frame makes the device depth
    buffer [500, 0, 0, 9998] (the [float] nearest to 9.999 lies below
    it, and the conversion rounds down) and publishes exactly two
    messages: the view message with the original [float]s, then the
    device message with that buffer, each with the simulation time read
    when it is packed. *)
Theorem scenario_2x2 (w : World) (st : Stream) :
  Z.of_nat (length (depthMap st)) = 4 \/ resizeOk w (resizes st) = true ->
  exists (st' : Stream) (v d : ImageStamped),
    run (OnNewDepthFrame w camera_2x2) st = Ok st'
    /\ depthMap st' = [500; 0; 0; 9998]
    /\ published st' = published st ++ [(depthViewPub, v); (depthPub, d)]
    /\ data v = Floats (DepthData camera_2x2)
    /\ data d = Depths [500; 0; 0; 9998]
    /\ time v = GetSimTime w (timeReads st)
    /\ time d = GetSimTime w (S (timeReads st)).
Proof.
  intros Hmem.
  assert (imageSize camera_2x2 = 4) as Hp by reflexivity.
  assert (exists st1, ensureCapacity w (imageSize camera_2x2) st = Ok (true, st1)
                      /\ Z.of_nat (length (depthMap st1)) = imageSize camera_2x2
                      /\ published st1 = published st
                      /\ timeReads st1 = timeReads st)
    as (st1 & Hcap & Hlen & Hpub & Htime).
  { rewrite Hp.
    destruct (ensureCapacity_cases w 4 st) as (ok & st1 & H1 & H2 & H3 & H4 & H5);
      [lia|].
    destruct ok.
    - exists st1. auto.
    - destruct (H5 eq_refl) as (_ & Hne & Hno).
      destruct Hmem as [Hmem | Hmem]; [lia | congruence]. }
  exists {| depthMap := [500; 0; 0; 9998];
            published := published st1 ++
              [(depthViewPub, view_msg (GetSimTime w (timeReads st1)) camera_2x2);
               (depthPub,
                device_msg (GetSimTime w (S (timeReads st1))) camera_2x2
                  [500; 0; 0; 9998])];
            cerr := cerr st1; timeReads := S (S (timeReads st1));
            resizes := resizes st1 |}.
  exists (view_msg (GetSimTime w (timeReads st1)) camera_2x2).
  exists (device_msg (GetSimTime w (S (timeReads st1))) camera_2x2
            [500; 0; 0; 9998]).
  split.
  { apply (frame_encoded w camera_2x2 st st1 [500; 0; 0; 9998] Hcap Hlen).
    - rewrite Hp. cbn. lia.
    - vm_compute. reflexivity. }
  cbn [depthMap published data time view_msg device_msg].
  rewrite Hpub, Htime.
  repeat split; reflexivity.
Qed.

(** C2 as stated does not hold: the buffer ends with 9998, not 9999, and
    the two time stamps differ when the clock advances in between. *)
Lemma scenario_2x2_as_stated_fails :
  run (OnNewDepthFrame ticking camera_2x2) fresh = Ok after_2x2
  /\ depthMap after_2x2 = [500; 0; 0; 9998]
  /\ depthMap after_2x2 <> [500; 0; 0; 9999]
  /\ encode (IEEE.float_lit 9999 1000) = Ok 9998
  /\ (time <$> (snd <$> published after_2x2))
     = [ {| sec := 0; nsec := 0 |}; {| sec := 1; nsec := 0 |} ].
Proof.
  split; [vm_compute; reflexivity|].
  split; [reflexivity|]. split; [discriminate|].
  split; vm_compute; reflexivity.
Qed.

Lemma scenario_2x2_first_frame :
  (Z.of_nat (length (depthMap fresh)) = 4
   \/ resizeOk ticking (resizes fresh) = true)
  /\ exists (st' : Stream) (v d : ImageStamped),
       run (OnNewDepthFrame ticking camera_2x2) fresh = Ok st'
       /\ depthMap st' = [500; 0; 0; 9998]
       /\ published st' = published fresh ++ [(depthViewPub, v); (depthPub, d)]
       /\ data v = Floats (DepthData camera_2x2)
       /\ data d = Depths [500; 0; 0; 9998]
       /\ time v = GetSimTime ticking (timeReads fresh)
       /\ time d = GetSimTime ticking (S (timeReads fresh)).
Proof.
  split; [right; reflexivity|].
  apply (scenario_2x2 ticking fresh). right. reflexivity.
Defined.

End Scenario.

(** ** The buffer across frames *)

Section Buffer.

(** C7. For every [n], once the check has made the buffer [n] samples
    long, the same check again does nothing: it calls no [resize] and
    leaves the plugin as it is, whatever the world; and so does any
    check of a buffer that already has [n] samples. *)
Theorem ensureCapacity_twice (w w' : World) (n : Z) (st st1 : Stream) :
  0 <= n ->
  ensureCapacity w n st = Ok (true, st1) ->
  ensureCapacity w' n st1 = Ok (true, st1)
  /\ (Z.of_nat (length (depthMap st)) = n ->
      st1 = st /\ resizes st1 = resizes st).
Proof.
  intros Hn Hcap.
  destruct (ensureCapacity_cases w n st Hn)
    as (ok & st2 & H1 & _ & _ & Hlen & _).
  rewrite H1 in Hcap. injection Hcap as -> ->.
  split.
  - apply ensureCapacity_sized. auto.
  - intros Heq. rewrite (ensureCapacity_sized w n st Heq) in H1.
    injection H1 as <-. auto.
Qed.

Lemma ensureCapacity_twice_4 :
  0 <= 4
  /\ ensureCapacity ticking 4 fresh
     = Ok (true, {| depthMap := [0; 0; 0; 0]; published := []; cerr := [];
                    timeReads := 0; resizes := 1 |})
  /\ ensureCapacity starved 4
       {| depthMap := [0; 0; 0; 0]; published := []; cerr := [];
          timeReads := 0; resizes := 1 |}
     = Ok (true, {| depthMap := [0; 0; 0; 0]; published := []; cerr := [];
                    timeReads := 0; resizes := 1 |}).
Proof.
  split; [lia|]. split; [reflexivity|].
  apply (ensureCapacity_twice ticking starved 4 fresh); [lia | reflexivity].
Defined.

(** C4. When the resize of the device depth buffer fails in a depth
    frame, the frame ends without undefined behaviour, the buffer is the
    one from before, and nothing is published; a later frame whose
    resize succeeds is processed as usual: the buffer takes the size of
    that frame and holds its conversion, and the two messages are
    published. *)
Theorem resize_failure_skips_frame (w : World) (cam : DepthCamera) (st : Stream) :
  Z.of_nat (length (depthMap st)) <> imageSize cam ->
  resizeOk w (resizes st) = false ->
  exists st1 : Stream,
    run (OnNewDepthFrame w cam) st = Ok st1
    /\ depthMap st1 = depthMap st
    /\ published st1 = published st
    /\ forall (w2 : World) (cam2 : DepthCamera) (ys : list Z),
         resizeOk w2 (resizes st1) = true ->
         (Z.to_nat (imageSize cam2) <= length (DepthData cam2))%nat ->
         encode_all (take (Z.to_nat (imageSize cam2)) (DepthData cam2)) = Ok ys ->
         exists st2 : Stream,
           run (OnNewDepthFrame w2 cam2) st1 = Ok st2
           /\ depthMap st2 = ys
           /\ Z.of_nat (length (depthMap st2)) = imageSize cam2
           /\ published st2 = published st ++
                [(depthViewPub, view_msg (GetSimTime w2 (timeReads st)) cam2);
                 (depthPub,
                  device_msg (GetSimTime w2 (S (timeReads st))) cam2 ys)].
Proof.
  intros Hne Hno.
  pose proof (ensureCapacity_failed w (imageSize cam) st Hne Hno) as Hcap.
  eexists. split; [apply (frame_skipped w cam st _ Hcap)|].
  cbn [depthMap published resizes].
  split; [reflexivity|]. split; [reflexivity|].
  intros w2 cam2 ys Hok Hsrc Henc.
  match goal with |- context [run _ ?s] => set (st1 := s) end.
  pose proof (imageSize_range cam2) as Hp.
  destruct (ensureCapacity_cases w2 (imageSize cam2) st1)
    as (ok & st2 & H1 & H2 & H3 & H4 & H5); [lia|].
  destruct ok;
    [|destruct (H5 eq_refl) as (_ & _ & H6); unfold st1 in H6;
      cbn [resizes] in H6; congruence].
  specialize (H4 eq_refl).
  eexists. split; [apply (frame_encoded w2 cam2 st1 st2 ys H1 H4 Hsrc Henc)|].
  cbn [depthMap published]. rewrite H2, H3.
  pose proof (encode_all_length _ _ Henc) as Hys. rewrite length_take in Hys.
  split; [reflexivity|]. split; [lia | reflexivity].
Qed.

Lemma resize_failure_then_2x2 :
  Z.of_nat (length (depthMap fresh)) <> imageSize camera_2x2
  /\ resizeOk starved (resizes fresh) = false
  /\ exists st1 : Stream,
       run (OnNewDepthFrame starved camera_2x2) fresh = Ok st1
       /\ depthMap st1 = depthMap fresh
       /\ published st1 = published fresh
       /\ forall (w2 : World) (cam2 : DepthCamera) (ys : list Z),
            resizeOk w2 (resizes st1) = true ->
            (Z.to_nat (imageSize cam2) <= length (DepthData cam2))%nat ->
            encode_all (take (Z.to_nat (imageSize cam2)) (DepthData cam2)) = Ok ys ->
            exists st2 : Stream,
              run (OnNewDepthFrame w2 cam2) st1 = Ok st2
              /\ depthMap st2 = ys
              /\ Z.of_nat (length (depthMap st2)) = imageSize cam2
              /\ published st2 = published fresh ++
                   [(depthViewPub,
                     view_msg (GetSimTime w2 (timeReads fresh)) cam2);
                    (depthPub,
                     device_msg (GetSimTime w2 (S (timeReads fresh))) cam2 ys)].
Proof.
  split; [discriminate|]. split; [reflexivity|].
  apply (resize_failure_skips_frame starved camera_2x2 fresh);
    [discriminate | reflexivity].
Defined.

(** C8. The depth encoder is deterministic: with the buffer already at
    the size of the frame, two runs on the same depth map end with the
    same device depth buffer, whatever the buffer held, whatever was
    published or read before, and whatever the world answers; and a
    second run right after the first leaves the buffer as it is. *)
Theorem encoder_deterministic
    (cam : DepthCamera) (w1 w2 : World) (st1 st2 : Stream) :
  Z.of_nat (length (depthMap st1)) = imageSize cam ->
  Z.of_nat (length (depthMap st2)) = imageSize cam ->
  buffer_of (run (OnNewDepthFrame w1 cam) st1)
  = buffer_of (run (OnNewDepthFrame w2 cam) st2)
  /\ forall st1' st1'' : Stream,
       run (OnNewDepthFrame w1 cam) st1 = Ok st1' ->
       run (OnNewDepthFrame w2 cam) st1' = Ok st1'' ->
       depthMap st1'' = depthMap st1'.
Proof.
  intros H1 H2.
  assert (forall (w : World) (st : Stream),
             Z.of_nat (length (depthMap st)) = imageSize cam ->
             buffer_of (run (OnNewDepthFrame w cam) st)
             = if decide (Z.to_nat (imageSize cam) <= length (DepthData cam))%nat
               then encode_all (take (Z.to_nat (imageSize cam)) (DepthData cam))
               else Crash OutOfBounds) as Hfun.
  { intros w st Hlen.
    pose proof (ensureCapacity_sized w (imageSize cam) st Hlen) as Hcap.
    destruct (decide (Z.to_nat (imageSize cam) <= length (DepthData cam))%nat)
      as [Hsrc | Hsrc].
    - destruct (encode_all (take (Z.to_nat (imageSize cam)) (DepthData cam)))
        as [ys | f] eqn:Henc.
      + by rewrite (frame_encoded w cam st st ys Hcap Hlen Hsrc Henc).
      + by rewrite (frame_undefined w cam st st f Hcap Hlen Hsrc Henc).
    - by rewrite (frame_out_of_bounds w cam st st Hcap Hsrc). }
  split.
  - by rewrite !Hfun.
  - intros st1' st1'' Hr1 Hr2.
    pose proof (Hfun w1 st1 H1) as E1. rewrite Hr1 in E1. cbn in E1.
    assert (Z.of_nat (length (depthMap st1')) = imageSize cam) as Hlen'.
    { destruct (decide (Z.to_nat (imageSize cam) <= length (DepthData cam))%nat);
        [|discriminate].
      symmetry in E1. apply encode_all_length in E1.
      rewrite length_take in E1. pose proof (imageSize_range cam). lia. }
    pose proof (Hfun w2 st1' Hlen') as E2. rewrite Hr2 in E2. cbn in E2.
    congruence.
Qed.

Lemma encoder_deterministic_2x2 :
  buffer_of (run (OnNewDepthFrame ticking camera_2x2) after_2x2)
  = buffer_of (run (OnNewDepthFrame starved camera_2x2)
                 {| depthMap := [1; 2; 3; 4]; published := []; cerr := [];
                    timeReads := 7; resizes := 0 |})
  /\ forall st1' st1'' : Stream,
       run (OnNewDepthFrame ticking camera_2x2) after_2x2 = Ok st1' ->
       run (OnNewDepthFrame starved camera_2x2) st1' = Ok st1'' ->
       depthMap st1'' = depthMap st1'.
Proof.
  apply (encoder_deterministic camera_2x2 ticking starved after_2x2);
    reflexivity.
Defined.

End Buffer.

(** ** The size of the buffer and of the messages *)

Section Sizes.

(** C6, amended. The plugin has one device depth buffer, [depthMap], and
    the device message carries it. Before every encode its length is
    the [unsigned int] product of the camera's width and height, that
    is width x height reduced modulo 2^32, hence width x height itself
    when that is below 2^32; it is still so after the loop. With a
    camera buffer of width x height samples, the frame accesses nothing
    out of bounds, in the source map or in the device buffer. *)
Theorem buffer_follows_frame (w : World) (cam : DepthCamera) (st : Stream) :
  0 <= ImageWidth cam -> 0 <= ImageHeight cam ->
  length (DepthData cam) = Z.to_nat (ImageWidth cam * ImageHeight cam) ->
  (forall st1 : Stream,
      ensureCapacity w (imageSize cam) st = Ok (true, st1) ->
      Z.of_nat (length (depthMap st1))
      = (ImageWidth cam * ImageHeight cam) mod 2 ^ 32
      /\ (ImageWidth cam * ImageHeight cam < 2 ^ 32 ->
          Z.of_nat (length (depthMap st1)) = ImageWidth cam * ImageHeight cam))
  /\ (forall (st' : Stream) (v d : ImageStamped),
         run (OnNewDepthFrame w cam) st = Ok st' ->
         published st' = published st ++ [(depthViewPub, v); (depthPub, d)] ->
         Z.of_nat (length (depthMap st'))
         = (ImageWidth cam * ImageHeight cam) mod 2 ^ 32
         /\ data d = Depths (depthMap st'))
  /\ run (OnNewDepthFrame w cam) st <> Crash OutOfBounds.
Proof.
  intros HW HH Hsrc.
  assert (0 <= ImageWidth cam * ImageHeight cam) as Hprod by lia.
  assert (imageSize cam = (ImageWidth cam * ImageHeight cam) mod 2 ^ 32)
    as Hp by reflexivity.
  pose proof (imageSize_range cam) as Hr.
  assert (Z.to_nat (imageSize cam) <= length (DepthData cam))%nat as Hfit.
  { rewrite Hsrc, Hp. apply Z2Nat.inj_le; [lia | lia |].
    apply Z.mod_le; lia. }
  split; [|split].
  - intros st1 Hcap.
    destruct (ensureCapacity_cases w (imageSize cam) st)
      as (ok & st2 & H1 & _ & _ & Hlen & _); [lia|].
    rewrite H1 in Hcap. injection Hcap as -> ->.
    rewrite <- Hp. split; [auto|].
    intros Hsmall. rewrite (Hlen eq_refl), Hp. apply Z.mod_small. lia.
  - intros st' v d Hrun Hpub.
    destruct (encoded_split w cam st st' v d Hrun Hpub)
      as (ys & -> & _ & Hys & _ & ->).
    cbn. rewrite <- Hp. auto.
  - destruct (frame_cases w cam st)
      as [(st1 & _ & Hr1 & _)
         | (st1 & _ & _ & _ & _ &
            [[Hno _] | [(_ & f & Henc & Hr1) | (_ & ys & _ & Hr1)]])];
      try (rewrite Hr1; discriminate); [lia|].
    rewrite Hr1. intros [= ->].
    assert (forall l, encode_all l <> Crash OutOfBounds) as Hnever.
    { induction l as [|x l IH]; cbn [encode_all]; [discriminate|].
      pose proof (encode_cases x) as Hx.
      destruct (encode x) as [y | g]; [|intros [= ->]; by destruct Hx].
      destruct (encode_all l); [discriminate | done]. }
    by apply Hnever in Henc.
Qed.

(** C6 as stated does not hold: a camera of 65536 x 65536 pixels, with
    all its samples, meets the check with an empty buffer, which passes
    as it is: the product has wrapped to 0. *)
Lemma buffer_size_wraps :
  length (DepthData camera_wide)
  = Z.to_nat (ImageWidth camera_wide * ImageHeight camera_wide)
  /\ imageSize camera_wide = 0
  /\ ensureCapacity ticking (imageSize camera_wide) fresh = Ok (true, fresh)
  /\ Z.of_nat (length (depthMap fresh))
     <> ImageWidth camera_wide * ImageHeight camera_wide.
Proof.
  split; [apply length_replicate|].
  split; [reflexivity|]. split; [reflexivity|]. discriminate.
Qed.

Lemma buffer_follows_frame_2x2 :
  (forall st1 : Stream,
      ensureCapacity ticking (imageSize camera_2x2) fresh = Ok (true, st1) ->
      Z.of_nat (length (depthMap st1))
      = (ImageWidth camera_2x2 * ImageHeight camera_2x2) mod 2 ^ 32
      /\ (ImageWidth camera_2x2 * ImageHeight camera_2x2 < 2 ^ 32 ->
          Z.of_nat (length (depthMap st1))
          = ImageWidth camera_2x2 * ImageHeight camera_2x2))
  /\ (forall (st' : Stream) (v d : ImageStamped),
         run (OnNewDepthFrame ticking camera_2x2) fresh = Ok st' ->
         published st' = published fresh ++ [(depthViewPub, v); (depthPub, d)] ->
         Z.of_nat (length (depthMap st'))
         = (ImageWidth camera_2x2 * ImageHeight camera_2x2) mod 2 ^ 32
         /\ data d = Depths (depthMap st'))
  /\ run (OnNewDepthFrame ticking camera_2x2) fresh <> Crash OutOfBounds.
Proof.
  apply (buffer_follows_frame ticking camera_2x2 fresh);
    [discriminate | discriminate | reflexivity].
Defined.

(** C9, amended. The device message says 16-bit single channel and has
    a payload of 2 x imageSize bytes, imageSize being width x height
    reduced modulo 2^32; its step is width x ImageDepth reduced modulo
    2^32, the camera's own pixel depth, not 2. So for a camera of
    positive width whose width x ImageDepth is below 2^32, the step
    differs from the row length 2 x width of the payload whenever
    ImageDepth is not 2. *)
Theorem device_msg_step (w : World) (cam : DepthCamera) (st st' : Stream)
    (v d : ImageStamped) :
  0 <= ImageWidth cam -> 0 <= ImageHeight cam -> 0 <= ImageDepth cam ->
  run (OnNewDepthFrame w cam) st = Ok st' ->
  published st' = published st ++ [(depthViewPub, v); (depthPub, d)] ->
  pixel_format d = L_INT16
  /\ data_size d = 2 * ((ImageWidth cam * ImageHeight cam) mod 2 ^ 32)
  /\ (exists buf : list Z,
        data d = Depths buf
        /\ Z.of_nat (length buf) = (ImageWidth cam * ImageHeight cam) mod 2 ^ 32)
  /\ step d = (ImageWidth cam * ImageDepth cam) mod 2 ^ 32
  /\ (ImageWidth cam * ImageHeight cam < 2 ^ 32 ->
      data_size d = 2 * ImageWidth cam * ImageHeight cam)
  /\ (0 < ImageWidth cam -> ImageWidth cam * ImageDepth cam < 2 ^ 32 ->
      ImageDepth cam <> 2 ->
      step d = ImageWidth cam * ImageDepth cam
      /\ step d <> 2 * ImageWidth cam).
Proof.
  intros HW HH HD Hrun Hpub.
  destruct (encoded_split w cam st st' v d Hrun Hpub)
    as (ys & _ & _ & Hys & _ & ->).
  assert (imageSize cam = (ImageWidth cam * ImageHeight cam) mod 2 ^ 32)
    as Hp by reflexivity.
  pose proof (imageSize_range cam) as Hr.
  assert (usize (2 * imageSize cam) = 2 * imageSize cam) as Hsz.
  { unfold usize. apply Z.mod_small.
    change (2 ^ 32) with 4294967296 in Hr.
    change (2 ^ 64) with 18446744073709551616. lia. }
  cbn [device_msg pixel_format data_size data step]. rewrite Hsz, Hp.
  split; [reflexivity|]. split; [reflexivity|].
  split; [exists ys; split; [reflexivity | by rewrite <- Hp]|].
  split; [reflexivity|]. split.
  - intros Hsmall. rewrite Z.mod_small by lia. lia.
  - intros Hpos Hsmall Hne. unfold u32. rewrite Z.mod_small by lia.
    split; [reflexivity | nia].
Qed.

(** C9 as stated does not hold. For a camera of 65536 x 65536 pixels of
    65538 bytes, the payload has 0 bytes, not 2 x width x height, the
    step is 131072, not width x ImageDepth, and 131072 is 2 x width
    although ImageDepth is not 2. For a camera of width 0 the step is
    2 x width, too. *)
Lemma device_msg_step_as_stated_fails :
  (exists (st' : Stream) (v d : ImageStamped),
      run (OnNewDepthFrame ticking camera_wrap) fresh = Ok st'
      /\ published st' = published fresh ++ [(depthViewPub, v); (depthPub, d)]
      /\ data_size d = 0
      /\ data_size d <> 2 * ImageWidth camera_wrap * ImageHeight camera_wrap
      /\ step d = 131072
      /\ step d <> ImageWidth camera_wrap * ImageDepth camera_wrap
      /\ ImageDepth camera_wrap <> 2
      /\ step d = 2 * ImageWidth camera_wrap)
  /\ (exists (st' : Stream) (v d : ImageStamped),
        run (OnNewDepthFrame ticking camera_0x0) fresh = Ok st'
        /\ published st' = published fresh ++ [(depthViewPub, v); (depthPub, d)]
        /\ ImageDepth camera_0x0 <> 2
        /\ step d = 2 * ImageWidth camera_0x0).
Proof.
  split.
  - eexists _, _, _. split; [vm_compute; reflexivity|].
    split; [reflexivity|]. cbn. repeat split; discriminate.
  - eexists _, _, _. split; [vm_compute; reflexivity|].
    split; [reflexivity|]. cbn. repeat split; discriminate.
Qed.

Lemma device_msg_step_2x2 :
  exists (v d : ImageStamped),
    published after_2x2 = published fresh ++ [(depthViewPub, v); (depthPub, d)]
    /\ pixel_format d = L_INT16
    /\ data_size d = 2 * ((ImageWidth camera_2x2 * ImageHeight camera_2x2) mod 2 ^ 32)
    /\ (exists buf : list Z,
          data d = Depths buf
          /\ Z.of_nat (length buf)
             = (ImageWidth camera_2x2 * ImageHeight camera_2x2) mod 2 ^ 32)
    /\ step d = (ImageWidth camera_2x2 * ImageDepth camera_2x2) mod 2 ^ 32
    /\ (ImageWidth camera_2x2 * ImageHeight camera_2x2 < 2 ^ 32 ->
        data_size d = 2 * ImageWidth camera_2x2 * ImageHeight camera_2x2)
    /\ (0 < ImageWidth camera_2x2 ->
        ImageWidth camera_2x2 * ImageDepth camera_2x2 < 2 ^ 32 ->
        ImageDepth camera_2x2 <> 2 ->
        step d = ImageWidth camera_2x2 * ImageDepth camera_2x2
        /\ step d <> 2 * ImageWidth camera_2x2).
Proof.
  eexists _, _. split; [vm_compute; reflexivity|].
  eapply (device_msg_step ticking camera_2x2 fresh after_2x2);
    [discriminate | discriminate | discriminate
    | vm_compute; reflexivity | vm_compute; reflexivity].
Defined.

End Sizes.

(** ** Setup *)

Section SetupFacts.

Import Setup.

Context (smanager : SensorManager) (modelName worldName : string).

(** A sensor that is not there, or not of the class asked for, makes
    [Load] go through a null pointer, before any of its checks. *)
Lemma Load_null_sensor :
  as_DepthCameraSensor (smanager DEPTH_CAMERA_NAME) = None
  \/ as_CameraSensor (smanager IRED1_CAMERA_NAME) = None
  \/ as_CameraSensor (smanager IRED2_CAMERA_NAME) = None
  \/ as_CameraSensor (smanager COLOR_CAMERA_NAME) = None ->
  Load smanager modelName worldName = Crash NullDeref.
Proof.
  unfold Load.
  destruct (as_DepthCameraSensor (smanager DEPTH_CAMERA_NAME)); cbn;
    [|reflexivity].
  destruct (as_CameraSensor (smanager IRED1_CAMERA_NAME)); cbn;
    [|reflexivity].
  destruct (as_CameraSensor (smanager IRED2_CAMERA_NAME)); cbn;
    [|reflexivity].
  destruct (as_CameraSensor (smanager COLOR_CAMERA_NAME)); cbn;
    [|reflexivity].
  intros [H | [H | [H | H]]]; discriminate.
Qed.

(** With the four sensors there, a renderer that is null stops [Load]
    after one line on [std::cerr], with no publisher and no callback. *)
Lemma Load_null_renderer (sd s1 s2 sc : Sensor) :
  as_DepthCameraSensor (smanager DEPTH_CAMERA_NAME) = Some sd ->
  as_CameraSensor (smanager IRED1_CAMERA_NAME) = Some s1 ->
  as_CameraSensor (smanager IRED2_CAMERA_NAME) = Some s2 ->
  as_CameraSensor (smanager COLOR_CAMERA_NAME) = Some sc ->
  renderer sd = None \/ renderer s1 = None
  \/ renderer s2 = None \/ renderer sc = None ->
  exists (p : Plugin) (line : string),
    Load smanager modelName worldName = Ok p
    /\ cerr p = [line] /\ advertised p = [] /\ unbound p
    /\ line =
         if is_null (renderer sd)
         then "RealSensePlugin: Depth Camera has not been found"%string
         else if is_null (renderer s1)
         then "RealSensePlugin: InfraRed Camera 1 has not been found"%string
         else if is_null (renderer s2)
         then "RealSensePlugin: InfraRed Camera 2 has not been found"%string
         else "RealSensePlugin: Color Camera has not been found"%string.
Proof.
  intros Hd H1 H2 Hc Hnull. unfold Load. rewrite Hd, H1, H2, Hc. cbn.
  destruct (renderer sd); cbn; [|by eexists _, _].
  destruct (renderer s1); cbn; [|by eexists _, _].
  destruct (renderer s2); cbn; [|by eexists _, _].
  destruct (renderer sc); cbn; [|by eexists _, _].
  destruct Hnull as [H | [H | [H | H]]]; discriminate.
Qed.

(** With the four renderers there, [Load] advertises the five topics
    and registers the five callbacks. *)
Lemma Load_ready (sd s1 s2 sc : Sensor) (cd c1 c2 cc : Camera) :
  as_DepthCameraSensor (smanager DEPTH_CAMERA_NAME) = Some sd ->
  as_CameraSensor (smanager IRED1_CAMERA_NAME) = Some s1 ->
  as_CameraSensor (smanager IRED2_CAMERA_NAME) = Some s2 ->
  as_CameraSensor (smanager COLOR_CAMERA_NAME) = Some sc ->
  renderer sd = Some cd -> renderer s1 = Some c1 ->
  renderer s2 = Some c2 -> renderer sc = Some cc ->
  exists p : Plugin,
    Load smanager modelName worldName = Ok p
    /\ cerr p = []
    /\ fst <$> advertised p
       = [depthViewPub; depthPub; ired1Pub; ired2Pub; colorPub]
    /\ connections p
       = [newDepthFrameConn; newIred1FrameConn; newIred2FrameConn;
          newColorFrameConn; updateConnection].
Proof.
  intros Hd H1 H2 Hc Rd R1 R2 Rc. unfold Load.
  rewrite Hd, H1, H2, Hc. cbn. rewrite Rd, R1, R2, Rc. cbn.
  by eexists.
Qed.

End SetupFacts.

(** C3, at the input where the code departs from it: the depth and the
    two infrared cameras are there, the color sensor is not. [Load] does
    not write which camera is missing and return: it goes through the null
    pointer that the cast of the missing sensor answers. *)
Theorem Load_without_color_sensor :
  Setup.Load no_color_sensor "rs_camera" "default" = Crash NullDeref.
Proof. vm_compute. reflexivity. Qed.

(** ** The four tests of the loop, exactly *)

Section Tests.

Lemma SFltb_pos_iff (m1 : positive) (e1 : Z) (m2 : positive) (e2 : Z) :
  SFltb (S754_finite false m1 e1) (S754_finite false m2 e2) = true
  <-> e1 < e2 \/ (e1 = e2 /\ Zpos m1 < Zpos m2).
Proof.
  split; [apply SFltb_pos_true|].
  intros H.
  destruct (SFltb (S754_finite false m1 e1) (S754_finite false m2 e2)) eqn:E;
    [reflexivity|].
  apply SFltb_pos_false in E. lia.
Qed.

(** What a finite [float] is made of: its number of digits [g], at most
    24 and exactly 24 unless the exponent is the least one, and its
    [double], whose mantissa has 53 digits. *)
Lemma float_anatomy (s : bool) (m : positive) (e : Z) :
  bounded IEEE.prec32 IEEE.emax32 m e = true ->
  exists (g : Z) (md : positive),
    IEEE.float_to_double (S754_finite s m e) = S754_finite s md (e + g - 53)
    /\ Zpos md = Zpos m * 2 ^ (53 - g)
    /\ 2 ^ 52 <= Zpos md < 2 ^ 53
    /\ 2 ^ (g - 1) <= Zpos m < 2 ^ g
    /\ 1 <= g <= 24 /\ -149 <= e /\ (g = 24 \/ e = -149).
Proof.
  intros Hv.
  destruct (float_to_double_finite s m e Hv) as (md & Hd & Hmd & Hdig).
  exists (Zpos (digits2_pos m)), md.
  pose proof (digits2_pos_bounds md) as Hb. rewrite Hdig in Hb.
  pose proof (digits2_pos_bounds m) as Hm.
  unfold bounded, canonical_mantissa, fexp, emin, IEEE.prec32, IEEE.emax32 in Hv.
  apply andb_prop in Hv as [Hcan _]. apply Z.eqb_eq in Hcan.
  repeat split; try assumption; try lia.
Qed.

Lemma clipped_two_tests (v : IEEE.float) :
  clipped v
  = IEEE.lt (IEEE.float_to_double v) DEPTH_NEAR_CLIP_M
    || IEEE.gt (IEEE.float_to_double v) DEPTH_FAR_CLIP_M.
Proof.
  unfold clipped.
  destruct v as [[s | s | | s m e] Hv]; cbn [IEEE.bits].
  - destruct s; vm_compute; reflexivity.
  - destruct s; vm_compute; reflexivity.
  - vm_compute. reflexivity.
  - cbn [valid_binary] in Hv.
    destruct (float_anatomy s m e Hv)
      as (g & md & Hd & Hmd & Hb & Hm & Hg & He & Hn).
    rewrite Hd, NEAR_bits, FAR_bits, OVERFLOW_bits.
    destruct s; [reflexivity|].
    assert (IEEE.lt (S754_finite false m e) (IEEE.float_of_Z 0) = false) as ->
      by reflexivity.
    rewrite orb_false_r.
    destruct (IEEE.gt (S754_finite false md (e + g - 53))
                (S754_finite false 4611615649683210 (-46))) eqn:Hover;
      [|by rewrite orb_false_r].
    apply SFltb_pos_iff in Hover.
    assert (IEEE.gt (S754_finite false md (e + g - 53))
              (S754_finite false 5629499534213120 (-49)) = true) as ->
      by (apply SFltb_pos_iff; lia).
    by rewrite !orb_true_r.
Qed.

(** The tests [v > SCALE * UINT16_MAX] and [v < 0] never decide: a sample
    that meets one of them meets [v > FAR] or [v < NEAR] already. This
    holds for every [float], NaN included. *)
Theorem clipped_by_near_and_far (v : IEEE.float) :
  clipped v
  = IEEE.lt (IEEE.float_to_double v) DEPTH_NEAR_CLIP_M
    || IEEE.gt (IEEE.float_to_double v) DEPTH_FAR_CLIP_M.
Proof. exact (clipped_two_tests v). Qed.

Lemma to_Q_lt (m : positive) (e a : Z) (b : positive) :
  (IEEE.to_Q (S754_finite false m e) < a # b)%Q
  <-> Zpos m * 2 ^ Z.max e 0 * Zpos b < a * 2 ^ Z.max (- e) 0.
Proof.
  destruct e as [|p|p]; cbn [IEEE.to_Q]; unfold Qlt; cbn [Qnum Qden].
  - change (2 ^ Z.max 0 0) with 1. change (2 ^ Z.max (- 0) 0) with 1. lia.
  - rewrite Z.max_l by lia. change (- Zpos p) with (Zneg p).
    rewrite Z.max_r by lia. change (2 ^ 0) with 1. lia.
  - rewrite Z.max_r by lia. change (- Zneg p) with (Zpos p).
    rewrite Z.max_l by lia. change (2 ^ 0) with 1.
    rewrite Pos2Z.inj_pow. lia.
Qed.

Lemma to_Q_gt (m : positive) (e a : Z) (b : positive) :
  (a # b < IEEE.to_Q (S754_finite false m e))%Q
  <-> a * 2 ^ Z.max (- e) 0 < Zpos m * 2 ^ Z.max e 0 * Zpos b.
Proof.
  destruct e as [|p|p]; cbn [IEEE.to_Q]; unfold Qlt; cbn [Qnum Qden].
  - change (2 ^ Z.max 0 0) with 1. change (2 ^ Z.max (- 0) 0) with 1. lia.
  - rewrite (Z.max_l (Zpos p) 0), (Z.max_r (- Zpos p) 0) by lia.
    change (2 ^ 0) with 1. lia.
  - rewrite (Z.max_r (Zneg p) 0), (Z.max_l (- Zneg p) 0) by lia.
    change (- Zneg p) with (Zpos p). change (2 ^ 0) with 1.
    rewrite Pos2Z.inj_pow. lia.
Qed.

Lemma pow2_split (a b : Z) : 0 <= a -> 0 <= b -> 2 ^ (a + b) = 2 ^ a * 2 ^ b.
Proof. intros. apply Z.pow_add_r; lia. Qed.

Lemma pow2_ge (a b : Z) : 0 <= a <= b -> 2 ^ a <= 2 ^ b.
Proof. intros. apply Z.pow_le_mono_r; lia. Qed.

Lemma near_test (m g e md : Z) :
  md = m * 2 ^ (53 - g) -> 2 ^ (g - 1) <= m < 2 ^ g -> 1 <= g <= 24 ->
  -149 <= e -> g = 24 \/ e = -149 ->
  (e + g - 53 < -54 \/ (e + g - 53 = -54 /\ md < 5404319552844595))
  <-> m * 2 ^ Z.max e 0 * 10 < 3 * 2 ^ Z.max (- e) 0.
Proof.
  intros Hmd Hm Hg He Hn.
  assert (0 < 2 ^ (g - 1)) by (apply Z.pow_pos_nonneg; lia).
  destruct (Z.lt_trichotomy (e + g) (-1)) as [Hlt | [Heq | Hgt]].
  - (* below a quarter *)
    split; [intros _ | lia].
    rewrite Z.max_r, Z.max_l by lia. change (2 ^ 0) with 1.
    assert (2 ^ (- e) = 2 ^ g * 2 ^ (- e - g)) as ->
      by (rewrite <- pow2_split by lia; f_equal; lia).
    pose proof (pow2_ge 2 (- e - g)) as H2. change (2 ^ 2) with 4 in H2.
    assert (0 < 2 ^ g) by (apply Z.pow_pos_nonneg; lia).
    nia.
  - (* the binade of 0.3 *)
    assert (g = 24) as -> by lia. assert (e = -25) as -> by lia.
    subst md. change (2 ^ (53 - 24)) with 536870912.
    change (2 ^ Z.max (-25) 0) with 1.
    change (2 ^ Z.max (- -25) 0) with 33554432. lia.
  - (* a half and above *)
    split; [lia | intros Hlt; exfalso].
    destruct (Z.le_gt_cases 0 e) as [Hpos | Hneg].
    + rewrite Z.max_l, Z.max_r in Hlt by lia. change (2 ^ 0) with 1 in Hlt.
      assert (0 < 2 ^ e) by (apply Z.pow_pos_nonneg; lia). nia.
    + rewrite Z.max_r, Z.max_l in Hlt by lia. change (2 ^ 0) with 1 in Hlt.
      assert (2 ^ (- e) = 2 * 2 ^ (- e - 1)) as Hp
        by (rewrite <- Z.pow_succ_r by lia; f_equal; lia).
      pose proof (pow2_ge (- e - 1) (g - 1)). lia.
Qed.

Lemma far_test (m g e md : Z) :
  md = m * 2 ^ (53 - g) -> 2 ^ (g - 1) <= m < 2 ^ g -> 1 <= g <= 24 ->
  -149 <= e -> g = 24 \/ e = -149 ->
  (-49 < e + g - 53 \/ (-49 = e + g - 53 /\ 5629499534213120 < md))
  <-> 10 * 2 ^ Z.max (- e) 0 < m * 2 ^ Z.max e 0 * 1.
Proof.
  intros Hmd Hm Hg He Hn.
  assert (0 < 2 ^ (g - 1)) by (apply Z.pow_pos_nonneg; lia).
  destruct (Z.lt_trichotomy (e + g) 4) as [Hlt | [Heq | Hgt]].
  - (* below 8 *)
    split; [lia | intros Hgt; exfalso].
    assert (e < 0) by lia.
    rewrite Z.max_l, Z.max_r in Hgt by lia. change (2 ^ 0) with 1 in Hgt.
    pose proof (pow2_ge g (3 - e)) as H3.
    assert (2 ^ (3 - e) = 8 * 2 ^ (- e)) as Hp
      by (replace (3 - e) with (3 + - e) by lia; rewrite pow2_split by lia;
          reflexivity).
    lia.
  - (* the binade of 10 *)
    assert (g = 24) as -> by lia. assert (e = -20) as -> by lia.
    subst md. change (2 ^ (53 - 24)) with 536870912.
    change (2 ^ Z.max (-20) 0) with 1.
    change (2 ^ Z.max (- -20) 0) with 1048576. lia.
  - (* 16 and above *)
    split; [intros _ | lia].
    destruct (Z.le_gt_cases 0 e) as [Hpos | Hneg].
    + rewrite Z.max_r, Z.max_l by lia. change (2 ^ 0) with 1.
      assert (2 ^ (g - 1 + e) = 2 ^ (g - 1) * 2 ^ e) as Hp
        by (apply pow2_split; lia).
      pose proof (pow2_ge 4 (g - 1 + e)) as H4. change (2 ^ 4) with 16 in H4.
      assert (0 < 2 ^ e) by (apply Z.pow_pos_nonneg; lia).
      nia.
    + rewrite Z.max_l, Z.max_r by lia. change (2 ^ 0) with 1.
      assert (2 ^ (g - 1) = 2 ^ (- e) * 2 ^ (g - 1 + e)) as Hp
        by (rewrite <- pow2_split by lia; f_equal; lia).
      pose proof (pow2_ge 4 (g - 1 + e)) as H4. change (2 ^ 4) with 16 in H4.
      assert (0 < 2 ^ (- e)) by (apply Z.pow_pos_nonneg; lia).
      nia.
Qed.

Lemma to_Q_negative (m : positive) (e : Z) :
  (IEEE.to_Q (S754_finite true m e) < 3 # 10)%Q.
Proof.
  destruct e as [|p|p]; cbn [IEEE.to_Q]; unfold Qlt, Qopp; cbn [Qnum Qden];
    lia.
Qed.

(** A sample other than NaN is clipped exactly when it is infinite or its
    exact value is below the decimal 0.3 or above 10: the rounding of the
    constant 0.3 to [double] misplaces no [float]. *)
Theorem clipped_exactly (v : IEEE.float) :
  IEEE.is_nan v = false ->
  clipped v = true
  <-> is_infinite v = true
      \/ (IEEE.to_Q v < 3 # 10)%Q \/ (10 # 1 < IEEE.to_Q v)%Q.
Proof.
  intros Hn. rewrite clipped_two_tests.
  destruct v as [[s | s | | s m e] Hv]; cbn [IEEE.bits] in *.
  - split; [intros _; right; left; reflexivity|].
    intros _. destruct s; vm_compute; reflexivity.
  - split; [intros _; left; reflexivity|].
    intros _. destruct s; vm_compute; reflexivity.
  - discriminate.
  - cbn [valid_binary] in Hv.
    destruct (float_anatomy s m e Hv)
      as (g & md & Hd & Hmd & Hb & Hm & Hg & He & Hg24).
    rewrite Hd, NEAR_bits, FAR_bits.
    destruct s.
    + split; [intros _; right; left; apply to_Q_negative | reflexivity].
    + rewrite orb_true_iff. unfold IEEE.lt, IEEE.gt.
      rewrite !SFltb_pos_iff, to_Q_lt, to_Q_gt.
      rewrite (near_test (Zpos m) g e (Zpos md)) by assumption.
      rewrite (far_test (Zpos m) g e (Zpos md)) by assumption.
      cbn [is_infinite].
      split; [intros [H | H]; [right; left | right; right]; lia|].
      intros [H | [H | H]]; [discriminate | left | right]; lia.
Qed.

Lemma clipped_exactly_half :
  IEEE.is_nan (IEEE.float_lit 5 10) = false
  /\ (clipped (IEEE.float_lit 5 10) = true
      <-> is_infinite (IEEE.float_lit 5 10) = true
          \/ (IEEE.to_Q (IEEE.float_lit 5 10) < 3 # 10)%Q
          \/ (10 # 1 < IEEE.to_Q (IEEE.float_lit 5 10))%Q).
Proof.
  split; [reflexivity | apply (clipped_exactly (IEEE.float_lit 5 10)); reflexivity].
Defined.

End Tests.

(** ** The quantisation *)

Section Quantisation.

(** A device depth other than 0 comes from a sample that is not NaN and
    passed the four tests. *)
Lemma encode_nonzero (v : IEEE.float) (x : Z) :
  encode v = Ok x -> x <> 0 ->
  x = Qfloor (IEEE.to_Q v / SCALE) /\ 300 <= x <= 10000.
Proof.
  intros Hv Hx.
  pose proof (encode_cases v) as Hc. rewrite Hv in Hc. destruct Hc as [Hn _].
  assert (clipped v = false) as Hcl.
  { destruct (clipped v) eqn:Hcl; [|reflexivity].
    unfold encode in Hv. rewrite Hcl in Hv. congruence. }
  destruct (encode_in_range v Hn Hcl) as [Hf Hr].
  assert (x = Qfloor (IEEE.to_Q v / SCALE)) as -> by congruence.
  auto.
Qed.

Lemma scale_up (q : Q) : (q / SCALE == q * inject_Z 1000)%Q.
Proof. unfold SCALE, Qdiv, Qinv. cbn. reflexivity. Qed.

(** A device depth other than 0, read as millimetres, is at most the
    sample and less than one millimetre below it. *)
Theorem device_depth_within_a_millimetre (v : IEEE.float) (x : Z) :
  encode v = Ok x -> x <> 0 ->
  (inject_Z x * SCALE <= IEEE.to_Q v)%Q
  /\ (IEEE.to_Q v < (inject_Z x + 1) * SCALE)%Q.
Proof.
  intros Hv Hx. destruct (encode_nonzero v x Hv Hx) as [-> _].
  set (q := (IEEE.to_Q v / SCALE)%Q).
  pose proof (Qfloor_le q) as Hlo. pose proof (Qlt_floor q) as Hhi.
  rewrite inject_Z_plus in Hhi.
  assert (IEEE.to_Q v == q * SCALE)%Q as Hq.
  { subst q. unfold Qdiv. rewrite <- Qmult_assoc.
    rewrite (Qmult_comm (/ SCALE)), Qmult_inv_r by discriminate.
    by rewrite Qmult_1_r. }
  rewrite Hq. split.
  - apply Qmult_le_compat_r; [exact Hlo | discriminate].
  - apply Qmult_lt_compat_r; [reflexivity | exact Hhi].
Qed.

Lemma device_depth_of_a_half :
  encode (IEEE.float_lit 5 10) = Ok 500 /\ 500 <> 0
  /\ (inject_Z 500 * SCALE <= IEEE.to_Q (IEEE.float_lit 5 10))%Q
  /\ (IEEE.to_Q (IEEE.float_lit 5 10) < (inject_Z 500 + 1) * SCALE)%Q.
Proof.
  split; [reflexivity|]. split; [discriminate|].
  apply (device_depth_within_a_millimetre (IEEE.float_lit 5 10) 500);
    [reflexivity | discriminate].
Defined.

(** The conversion keeps the order of the samples, as long as the larger
    one is not clipped. *)
Theorem encode_monotone (v1 v2 : IEEE.float) (x1 x2 : Z) :
  encode v1 = Ok x1 -> encode v2 = Ok x2 -> x2 <> 0 ->
  (IEEE.to_Q v1 <= IEEE.to_Q v2)%Q ->
  x1 <= x2.
Proof.
  intros H1 H2 Hx2 Hle.
  destruct (encode_nonzero v2 x2 H2 Hx2) as [E2 R2].
  destruct (Z.eq_dec x1 0) as [-> | Hx1]; [lia|].
  destruct (encode_nonzero v1 x1 H1 Hx1) as [E1 _].
  rewrite E1, E2. apply Qfloor_resp_le.
  apply Qmult_le_compat_r; [exact Hle | discriminate].
Qed.

Lemma encode_monotone_half_and_ten :
  encode (IEEE.float_lit 5 10) = Ok 500
  /\ encode (IEEE.float_lit 10 1) = Ok 10000 /\ 10000 <> 0
  /\ (IEEE.to_Q (IEEE.float_lit 5 10) <= IEEE.to_Q (IEEE.float_lit 10 1))%Q
  /\ 500 <= 10000.
Proof.
  split; [reflexivity|]. split; [reflexivity|]. split; [discriminate|].
  split; [discriminate|].
  apply (encode_monotone (IEEE.float_lit 5 10) (IEEE.float_lit 10 1) 500 10000);
    [reflexivity | reflexivity | discriminate | discriminate].
Defined.

End Quantisation.

(** ** What one depth frame does *)

Section FrameEffects.

Context (w : World) (cam : DepthCamera).

(** A depth frame that ends without fault is either skipped, with its
    one line on [std::cerr], or encoded. *)
Lemma frame_outcomes (st st' : Stream) :
  run (OnNewDepthFrame w cam) st = Ok st' ->
  (Z.of_nat (length (depthMap st)) <> imageSize cam
   /\ resizeOk w (resizes st) = false
   /\ st' = {| depthMap := depthMap st; published := published st;
               cerr := cerr st ++
                 ["RealSensePlugin: depthMap allocation failed: std::bad_alloc"%string];
               timeReads := timeReads st; resizes := S (resizes st) |})
  \/ (exists ys : list Z,
        encode_all (take (Z.to_nat (imageSize cam)) (DepthData cam)) = Ok ys
        /\ (Z.to_nat (imageSize cam) <= length (DepthData cam))%nat
        /\ st' = {| depthMap := ys;
                    published := published st ++
                      [(depthViewPub, view_msg (GetSimTime w (timeReads st)) cam);
                       (depthPub,
                        device_msg (GetSimTime w (S (timeReads st))) cam ys)];
                    cerr := cerr st;
                    timeReads := S (S (timeReads st));
                    resizes := if Z.of_nat (length (depthMap st)) =? imageSize cam
                               then resizes st else S (resizes st) |}).
Proof.
  intros Hrun.
  pose proof (imageSize_range cam) as Hp.
  assert (forall st1 : Stream,
             ensureCapacity w (imageSize cam) st = Ok (true, st1) ->
             Z.of_nat (length (depthMap st1)) = imageSize cam ->
             exists ys : list Z,
               encode_all (take (Z.to_nat (imageSize cam)) (DepthData cam)) = Ok ys
               /\ (Z.to_nat (imageSize cam) <= length (DepthData cam))%nat
               /\ st' = {| depthMap := ys;
                           published := published st1 ++
                             [(depthViewPub,
                               view_msg (GetSimTime w (timeReads st1)) cam);
                              (depthPub,
                               device_msg (GetSimTime w (S (timeReads st1))) cam ys)];
                           cerr := cerr st1;
                           timeReads := S (S (timeReads st1));
                           resizes := resizes st1 |}) as Hgo.
  { intros st1 Hcap Hlen.
    destruct (decide (Z.to_nat (imageSize cam) <= length (DepthData cam))%nat)
      as [Hsrc | Hsrc].
    - destruct (encode_all (take (Z.to_nat (imageSize cam)) (DepthData cam)))
        as [ys | f] eqn:Henc.
      + exists ys. split; [reflexivity|]. split; [exact Hsrc|].
        rewrite (frame_encoded w cam st st1 ys Hcap Hlen Hsrc Henc) in Hrun.
        congruence.
      + rewrite (frame_undefined w cam st st1 f Hcap Hlen Hsrc Henc) in Hrun.
        discriminate.
    - rewrite (frame_out_of_bounds w cam st st1 Hcap Hsrc) in Hrun.
      discriminate. }
  destruct (decide (Z.of_nat (length (depthMap st)) = imageSize cam))
    as [Heq | Hne].
  - right.
    destruct (Hgo st (ensureCapacity_sized w _ st Heq) Heq)
      as (ys & Henc & Hsrc & ->).
    exists ys. apply Z.eqb_eq in Heq. rewrite Heq. auto.
  - destruct (resizeOk w (resizes st)) eqn:Hok.
    + right.
      pose proof (ensureCapacity_resized w (imageSize cam) st Hne Hok) as Hcap.
      destruct (Hgo _ Hcap) as (ys & Henc & Hsrc & ->).
      { cbn [depthMap]. rewrite length_resize. lia. }
      exists ys. apply Z.eqb_neq in Hne. rewrite Hne. auto.
    + left.
      pose proof (ensureCapacity_failed w (imageSize cam) st Hne Hok) as Hcap.
      rewrite (frame_skipped w cam st _ Hcap) in Hrun.
      split; [exact Hne|]. split; [reflexivity | congruence].
Qed.

(** A depth frame publishes nothing or the view message followed by the
    device message: never one without the other, and never on a colour
    or infrared publisher. It writes to [std::cerr] exactly when it
    publishes nothing, and then leaves the buffer and the clock alone;
    it calls [resize] at most once. *)
Theorem frame_none_or_both (st st' : Stream) :
  run (OnNewDepthFrame w cam) st = Ok st' ->
  (published st' = published st
   /\ depthMap st' = depthMap st /\ timeReads st' = timeReads st
   /\ length (cerr st') = S (length (cerr st))
   /\ resizes st' = S (resizes st))
  \/ ((exists v d : ImageStamped,
         published st' = published st ++ [(depthViewPub, v); (depthPub, d)])
      /\ cerr st' = cerr st /\ timeReads st' = S (S (timeReads st))
      /\ (resizes st' <= S (resizes st))%nat).
Proof.
  intros Hrun.
  destruct (frame_outcomes st st' Hrun)
    as [(_ & _ & ->) | (ys & _ & _ & ->)]; cbn.
  - left. rewrite length_app. cbn. repeat split; lia.
  - right. split; [by eexists _, _|].
    split; [reflexivity|]. split; [reflexivity|].
    destruct (Z.of_nat (length (depthMap st)) =? imageSize cam); lia.
Qed.

(** After a frame that was encoded, sample [i] of the device depth buffer
    is the conversion of sample [i] of the depth map, for every [i] below
    the size of the frame, and the buffer has no other sample: nothing of
    what it held before remains, whatever its size was. *)
Theorem frame_buffer_is_encoding (st st' : Stream) :
  run (OnNewDepthFrame w cam) st = Ok st' ->
  published st' <> published st ->
  length (depthMap st') = Z.to_nat (imageSize cam)
  /\ forall i : nat,
       (i < Z.to_nat (imageSize cam))%nat ->
       exists (v : IEEE.float) (x : Z),
         DepthData cam !! i = Some v /\ encode v = Ok x
         /\ depthMap st' !! i = Some x.
Proof.
  intros Hrun Hpub.
  destruct (frame_outcomes st st' Hrun)
    as [(_ & _ & ->) | (ys & Henc & Hsrc & ->)]; cbn [depthMap published] in *;
    [congruence|].
  pose proof (encode_all_length _ _ Henc) as Hlen.
  rewrite length_take in Hlen.
  split; [lia|]. intros i Hi.
  destruct (lookup_lt_is_Some_2 ys i) as [x Hx]; [lia|].
  destruct (encode_all_lookup _ _ Henc i x Hx) as (v & Hv & Hvx).
  apply lookup_take_Some in Hv as [Hv _].
  by exists v, x.
Qed.

(** The view message carries the depth map as it is, clipped samples
    included, as 4 bytes per sample; when the camera's own pixel depth is
    4 and the frame is below 2^32 bytes, its step times its height is the
    length of its payload. *)
Theorem view_msg_is_raw (st st' : Stream) (v d : ImageStamped) :
  0 <= ImageWidth cam -> 0 <= ImageHeight cam ->
  run (OnNewDepthFrame w cam) st = Ok st' ->
  published st' = published st ++ [(depthViewPub, v); (depthPub, d)] ->
  pixel_format v = R_FLOAT32
  /\ width v = ImageWidth cam /\ height v = ImageHeight cam
  /\ data_size v = 4 * imageSize cam
  /\ (exists fs : list IEEE.float,
        data v = Floats fs
        /\ length fs = Z.to_nat (imageSize cam)
        /\ forall i : nat,
             (i < Z.to_nat (imageSize cam))%nat ->
             fs !! i = DepthData cam !! i)
  /\ (ImageDepth cam = 4 ->
      4 * (ImageWidth cam * ImageHeight cam) < 2 ^ 32 ->
      step v * height v = data_size v).
Proof.
  intros HW HH Hrun Hpub.
  destruct (frame_outcomes st st' Hrun)
    as [(_ & _ & ->) | (ys & Henc & Hsrc & ->)]; cbn [published] in Hpub.
  - apply (f_equal length) in Hpub. rewrite length_app in Hpub.
    cbn in Hpub. lia.
  - apply app_inv_head in Hpub. injection Hpub as <- <-.
    pose proof (imageSize_range cam) as Hr.
    assert (usize (4 * imageSize cam) = 4 * imageSize cam) as Hsz.
    { unfold usize. apply Z.mod_small.
      change (2 ^ 32) with 4294967296 in Hr.
      change (2 ^ 64) with 18446744073709551616. lia. }
    cbn [view_msg pixel_format width height data_size data step].
    rewrite Hsz.
    split; [reflexivity|]. split; [reflexivity|]. split; [reflexivity|].
    split; [reflexivity|]. split.
    + eexists. split; [reflexivity|]. rewrite length_take.
      split; [lia|]. intros i Hi. by apply lookup_take_lt.
    + intros HD Hsmall. rewrite HD. unfold imageSize, u32.
      change (2 ^ 32) with 4294967296 in *.
      destruct (Z.eq_dec (ImageHeight cam) 0) as [H0 | H0].
      * rewrite H0, !Z.mul_0_r. reflexivity.
      * rewrite !Z.mod_small by nia. lia.
Qed.

End FrameEffects.

Lemma frame_none_or_both_2x2 :
  (published after_2x2 = published fresh
   /\ depthMap after_2x2 = depthMap fresh
   /\ timeReads after_2x2 = timeReads fresh
   /\ length (cerr after_2x2) = S (length (cerr fresh))
   /\ resizes after_2x2 = S (resizes fresh))
  \/ ((exists v d : ImageStamped,
         published after_2x2
         = published fresh ++ [(depthViewPub, v); (depthPub, d)])
      /\ cerr after_2x2 = cerr fresh
      /\ timeReads after_2x2 = S (S (timeReads fresh))
      /\ (resizes after_2x2 <= S (resizes fresh))%nat).
Proof.
  apply (frame_none_or_both ticking camera_2x2 fresh after_2x2).
  vm_compute. reflexivity.
Defined.

Lemma frame_buffer_is_encoding_2x2 :
  length (depthMap after_2x2) = Z.to_nat (imageSize camera_2x2)
  /\ forall i : nat,
       (i < Z.to_nat (imageSize camera_2x2))%nat ->
       exists (v : IEEE.float) (x : Z),
         DepthData camera_2x2 !! i = Some v /\ encode v = Ok x
         /\ depthMap after_2x2 !! i = Some x.
Proof.
  apply (frame_buffer_is_encoding ticking camera_2x2 fresh after_2x2);
    [vm_compute; reflexivity | discriminate].
Defined.

Lemma view_msg_is_raw_2x2 :
  exists v d : ImageStamped,
    published after_2x2 = published fresh ++ [(depthViewPub, v); (depthPub, d)]
    /\ pixel_format v = R_FLOAT32
    /\ width v = ImageWidth camera_2x2 /\ height v = ImageHeight camera_2x2
    /\ data_size v = 4 * imageSize camera_2x2
    /\ (exists fs : list IEEE.float,
          data v = Floats fs
          /\ length fs = Z.to_nat (imageSize camera_2x2)
          /\ forall i : nat,
               (i < Z.to_nat (imageSize camera_2x2))%nat ->
               fs !! i = DepthData camera_2x2 !! i)
    /\ (ImageDepth camera_2x2 = 4 ->
        4 * (ImageWidth camera_2x2 * ImageHeight camera_2x2) < 2 ^ 32 ->
        step v * height v = data_size v).
Proof.
  eexists _, _. split; [vm_compute; reflexivity|].
  eapply (view_msg_is_raw ticking camera_2x2 fresh after_2x2);
    [discriminate | discriminate | vm_compute; reflexivity
    | vm_compute; reflexivity].
Defined.

(** ** The depth stream over a run *)

Section Run.

Context (w : World).

Lemma frames_invariant (Inv : Stream -> Prop) :
  (forall (cam : DepthCamera) (st st' : Stream),
      Inv st -> run (OnNewDepthFrame w cam) st = Ok st' -> Inv st') ->
  forall (cams : list DepthCamera) (st st' : Stream),
    Inv st -> frames w cams st = Ok st' -> Inv st'.
Proof.
  intros Hstep. induction cams as [|cam cams IH]; intros st st' Hst Hrun.
  - cbn in Hrun. congruence.
  - cbn [frames] in Hrun.
    destruct (run (OnNewDepthFrame w cam) st) as [st1|] eqn:H1; [|discriminate].
    apply (IH st1 st'); [|exact Hrun]. by apply (Hstep cam st).
Qed.

(** At every moment of a run the device depth buffer holds device depths
    only, and it is the payload of the last message published, which is
    a device message; before the first message it is empty. *)
Theorem run_buffer_is_last_payload (cams : list DepthCamera) (st : Stream) :
  frames w cams fresh = Ok st ->
  Forall device_depth (depthMap st)
  /\ ((published st = [] /\ depthMap st = [])
      \/ exists m : ImageStamped,
           last (published st) = Some (depthPub, m)
           /\ pixel_format m = L_INT16
           /\ data m = Depths (depthMap st)).
Proof.
  intros Hall.
  apply (frames_invariant
           (fun st => Forall device_depth (depthMap st)
                      /\ ((published st = [] /\ depthMap st = [])
                          \/ exists m : ImageStamped,
                               last (published st) = Some (depthPub, m)
                               /\ pixel_format m = L_INT16
                               /\ data m = Depths (depthMap st))))
    with (cams := cams) (st := fresh); [| | exact Hall].
  - intros cam s s' [Hdev Hlast] Hstep.
    destruct (frame_outcomes w cam s s' Hstep)
      as [(_ & _ & ->) | (ys & Henc & _ & ->)]; cbn [depthMap published].
    + auto.
    + split.
      * apply Forall_lookup. intros i x Hi.
        destruct (encode_all_lookup _ _ Henc i x Hi) as (v & _ & Hv).
        pose proof (encode_cases v) as Hc. rewrite Hv in Hc. tauto.
      * right. eexists. split; [|split].
        -- change [(depthViewPub, ?a); (depthPub, ?b)]
             with ([(depthViewPub, a)] ++ [(depthPub, b)]).
           rewrite app_assoc. apply last_snoc.
        -- reflexivity.
        -- reflexivity.
  - split; [constructor | left; split; reflexivity].
Qed.

(** Over a run, the k-th message published carries the k-th reading of
    the clock, and the messages alternate: view messages of 32-bit floats
    at the even positions, device messages of 16-bit integers at the odd
    ones. The clock is read once per message. *)
Theorem run_stamps (cams : list DepthCamera) (st : Stream) :
  frames w cams fresh = Ok st ->
  timeReads st = length (published st)
  /\ forall (k : nat) (p : Publisher) (m : ImageStamped),
       published st !! k = Some (p, m) ->
       time m = GetSimTime w k /\ (p, pixel_format m) = stream_at k.
Proof.
  intros Hrun.
  enough (Nat.even (length (published st)) = true
          /\ timeReads st = length (published st)
          /\ forall (k : nat) (p : Publisher) (m : ImageStamped),
               published st !! k = Some (p, m) ->
               time m = GetSimTime w k /\ (p, pixel_format m) = stream_at k)
    as (_ & H) by exact H.
  apply (frames_invariant
           (fun st => Nat.even (length (published st)) = true
                      /\ timeReads st = length (published st)
                      /\ forall (k : nat) (p : Publisher) (m : ImageStamped),
                           published st !! k = Some (p, m) ->
                           time m = GetSimTime w k
                           /\ (p, pixel_format m) = stream_at k))
    with (cams := cams) (st := fresh); [| | exact Hrun].
  - intros cam s s' (Hev & Hcount & Hall) Hstep.
    destruct (frame_outcomes w cam s s' Hstep)
      as [(_ & _ & ->) | (ys & _ & _ & ->)]; cbn [published timeReads].
    + auto.
    + rewrite length_app. cbn [length].
      split; [|split].
      * replace (length (published s) + 2)%nat
          with (S (S (length (published s)))) by lia.
        exact Hev.
      * lia.
      * intros k p m Hk.
        destruct (decide (k < length (published s))%nat) as [Hlt | Hge].
        -- rewrite lookup_app_l in Hk by exact Hlt. by apply Hall.
        -- rewrite lookup_app_r in Hk by lia.
           destruct (k - length (published s))%nat as [|[|j]] eqn:Hj;
             cbn in Hk; [| |discriminate].
           ++ injection Hk as <- <-. cbn [view_msg time pixel_format].
              assert (k = length (published s)) as -> by lia.
              rewrite Hcount. unfold stream_at. by rewrite Hev.
           ++ injection Hk as <- <-. cbn [device_msg time pixel_format].
              assert (k = S (length (published s))) as -> by lia.
              rewrite Hcount. unfold stream_at.
              rewrite Nat.even_succ, <- Nat.negb_even, Hev. done.
  - split; [reflexivity|]. split; [reflexivity|].
    intros k p m Hk. cbn in Hk. discriminate.
Qed.

(** No frame of a run goes unaccounted for: each one has published its
    two messages or written its line on [std::cerr]. *)
Theorem run_accounts_for_every_frame
    (cams : list DepthCamera) (st st' : Stream) :
  frames w cams st = Ok st' ->
  (length (published st') + 2 * length (cerr st')
   = length (published st) + 2 * length (cerr st) + 2 * length cams)%nat.
Proof.
  revert st. induction cams as [|cam cams IH]; intros st Hrun.
  - cbn in Hrun. injection Hrun as <-. cbn. lia.
  - cbn [frames] in Hrun.
    destruct (run (OnNewDepthFrame w cam) st) as [st1|] eqn:H1; [|discriminate].
    rewrite (IH st1 Hrun).
    destruct (frame_outcomes w cam st st1 H1)
      as [(_ & _ & ->) | (ys & _ & _ & ->)];
      cbn [published cerr]; rewrite length_app; cbn [length]; lia.
Qed.

End Run.

Lemma run_buffer_is_last_payload_two_frames :
  Forall device_depth (depthMap after_two_frames)
  /\ ((published after_two_frames = [] /\ depthMap after_two_frames = [])
      \/ exists m : ImageStamped,
           last (published after_two_frames) = Some (depthPub, m)
           /\ pixel_format m = L_INT16
           /\ data m = Depths (depthMap after_two_frames)).
Proof.
  apply (run_buffer_is_last_payload starved [camera_2x2; camera_2x2]).
  vm_compute. reflexivity.
Defined.

Lemma run_stamps_two_frames :
  timeReads after_two_frames = length (published after_two_frames)
  /\ forall (k : nat) (p : Publisher) (m : ImageStamped),
       published after_two_frames !! k = Some (p, m) ->
       time m = GetSimTime starved k /\ (p, pixel_format m) = stream_at k.
Proof.
  apply (run_stamps starved [camera_2x2; camera_2x2]).
  vm_compute. reflexivity.
Defined.

Lemma run_accounts_for_two_frames :
  (length (published after_two_frames) + 2 * length (cerr after_two_frames)
   = length (published fresh) + 2 * length (cerr fresh)
     + 2 * length [camera_2x2; camera_2x2])%nat.
Proof.
  apply (run_accounts_for_every_frame starved [camera_2x2; camera_2x2]).
  vm_compute. reflexivity.
Defined.

(** ** Setup, in full *)

Section SetupOutcome.

Import Setup.

Lemma append_cancel (r a b : string) :
  (r ++ a)%string = (r ++ b)%string -> a = b.
Proof.
  induction r as [|c r IH]; cbn; [auto|]. intros [= H]. auto.
Qed.

(** [Load] never leaves a part of the rig running: when it returns, either
    it has advertised nothing, registered no callback, set up no
    transport node and written one line about a missing camera, one of
    the four renderers being null; or it has the four renderers, the
    five publishers, the five callbacks and the transport node of the
    world, and has written nothing to [std::cerr]. *)
Theorem Load_all_or_nothing
    (smanager : SensorManager) (modelName worldName : string) (p : Plugin) :
  Load smanager modelName worldName = Ok p ->
  (unbound p /\ advertised p = [] /\ transportNode p = None
   /\ length (cerr p) = 1%nat
   /\ (is_null (depthCam p) || is_null (ired1Cam p)
       || is_null (ired2Cam p) || is_null (colorCam p) = true))
  \/ (fst <$> advertised p
      = [depthViewPub; depthPub; ired1Pub; ired2Pub; colorPub]
      /\ connections p
         = [newDepthFrameConn; newIred1FrameConn; newIred2FrameConn;
            newColorFrameConn; updateConnection]
      /\ transportNode p = Some worldName /\ cerr p = []
      /\ (is_null (depthCam p) || is_null (ired1Cam p)
          || is_null (ired2Cam p) || is_null (colorCam p) = false)).
Proof.
  unfold Load, and_then, renderer_of.
  destruct (as_DepthCameraSensor (smanager DEPTH_CAMERA_NAME)) as [sd|];
    [|discriminate].
  destruct (as_CameraSensor (smanager IRED1_CAMERA_NAME)) as [s1|];
    [|discriminate].
  destruct (as_CameraSensor (smanager IRED2_CAMERA_NAME)) as [s2|];
    [|discriminate].
  destruct (as_CameraSensor (smanager COLOR_CAMERA_NAME)) as [sc|];
    [|discriminate].
  destruct (renderer sd), (renderer s1), (renderer s2), (renderer sc);
    cbn [is_null]; intros [= <-]; cbn; unfold unbound; cbn; auto 10.
Qed.

(** The five publishers are advertised on five different topics, each
    one the topic root of the model followed by the name of its channel,
    whatever the name of the model. *)
Theorem Load_topics
    (smanager : SensorManager) (modelName worldName : string) (p : Plugin) :
  Load smanager modelName worldName = Ok p ->
  NoDup (snd <$> advertised p)
  /\ forall (pub : Publisher) (topic : string),
       (pub, topic) ∈ advertised p ->
       exists channel : string,
         topic = (("~/" ++ modelName ++ "/rs/stream/") ++ channel)%string
         /\ (pub, channel) ∈
              [(depthViewPub, "depth_view"%string); (depthPub, "depth"%string);
               (ired1Pub, "infrared"%string); (ired2Pub, "infrared2"%string);
               (colorPub, "color"%string)].
Proof.
  unfold Load, and_then, renderer_of.
  destruct (as_DepthCameraSensor (smanager DEPTH_CAMERA_NAME)) as [sd|];
    [|discriminate].
  destruct (as_CameraSensor (smanager IRED1_CAMERA_NAME)) as [s1|];
    [|discriminate].
  destruct (as_CameraSensor (smanager IRED2_CAMERA_NAME)) as [s2|];
    [|discriminate].
  destruct (as_CameraSensor (smanager COLOR_CAMERA_NAME)) as [sc|];
    [|discriminate].
  destruct (renderer sd), (renderer s1), (renderer s2), (renderer sc);
    cbn [is_null]; intros [= <-]; cbn [advertised fmap list_fmap snd];
    try (split; [constructor | intros pub topic H; by apply elem_of_nil in H]).
  set (root := ("~/" ++ modelName ++ "/rs/stream/")%string).
  split.
  - repeat (apply NoDup_cons; split);
      [..|apply NoDup_nil; exact I];
      rewrite ?elem_of_cons, elem_of_nil;
      intros H; repeat (destruct H as [H | H]); try exact H;
      cbn in H; injection H as H; apply append_cancel in H; discriminate.
  - intros pub topic H.
    repeat (apply elem_of_cons in H as [H | H]);
      [injection H as -> ->; eexists; split; [reflexivity|] ..
      | by apply elem_of_nil in H].
    + apply elem_of_cons. by left.
    + apply elem_of_cons. right. apply elem_of_cons. by left.
    + do 2 (apply elem_of_cons; right). apply elem_of_cons. by left.
    + do 3 (apply elem_of_cons; right). apply elem_of_cons. by left.
    + do 4 (apply elem_of_cons; right). apply elem_of_cons. by left.
Qed.

End SetupOutcome.

Lemma Load_all_or_nothing_full_rig :
  (Setup.unbound loaded /\ Setup.advertised loaded = []
   /\ Setup.transportNode loaded = None
   /\ length (Setup.cerr loaded) = 1%nat
   /\ (Setup.is_null (Setup.depthCam loaded)
       || Setup.is_null (Setup.ired1Cam loaded)
       || Setup.is_null (Setup.ired2Cam loaded)
       || Setup.is_null (Setup.colorCam loaded) = true))
  \/ (fst <$> Setup.advertised loaded
      = [depthViewPub; depthPub; ired1Pub; ired2Pub; colorPub]
      /\ Setup.connections loaded
         = [Setup.newDepthFrameConn; Setup.newIred1FrameConn;
            Setup.newIred2FrameConn; Setup.newColorFrameConn;
            Setup.updateConnection]
      /\ Setup.transportNode loaded = Some "default"%string
      /\ Setup.cerr loaded = []
      /\ (Setup.is_null (Setup.depthCam loaded)
          || Setup.is_null (Setup.ired1Cam loaded)
          || Setup.is_null (Setup.ired2Cam loaded)
          || Setup.is_null (Setup.colorCam loaded) = false)).
Proof.
  apply (Load_all_or_nothing full_rig "rs_camera" "default" loaded).
  vm_compute. reflexivity.
Defined.

Lemma Load_topics_full_rig :
  NoDup (snd <$> Setup.advertised loaded)
  /\ forall (pub : Publisher) (topic : string),
       (pub, topic) ∈ Setup.advertised loaded ->
       exists channel : string,
         topic = (("~/" ++ "rs_camera" ++ "/rs/stream/") ++ channel)%string
         /\ (pub, channel) ∈
              [(depthViewPub, "depth_view"%string); (depthPub, "depth"%string);
               (ired1Pub, "infrared"%string); (ired2Pub, "infrared2"%string);
               (colorPub, "color"%string)].
Proof.
  apply (Load_topics full_rig "rs_camera" "default" loaded).
  vm_compute. reflexivity.
Defined.

Lemma Load_ready_full_rig :
  exists p : Setup.Plugin,
    Setup.Load full_rig "rs_camera" "default" = Ok p
    /\ Setup.cerr p = []
    /\ fst <$> Setup.advertised p
       = [depthViewPub; depthPub; ired1Pub; ired2Pub; colorPub]
    /\ Setup.connections p
       = [Setup.newDepthFrameConn; Setup.newIred1FrameConn;
          Setup.newIred2FrameConn; Setup.newColorFrameConn;
          Setup.updateConnection].
Proof.
  apply (Load_ready full_rig "rs_camera" "default"
           {| Setup.isDepthCameraSensor := true; Setup.isCameraSensor := true;
              Setup.renderer := Some "depth"%string |}
           {| Setup.isDepthCameraSensor := false; Setup.isCameraSensor := true;
              Setup.renderer := Some "ired1"%string |}
           {| Setup.isDepthCameraSensor := false; Setup.isCameraSensor := true;
              Setup.renderer := Some "ired2"%string |}
           {| Setup.isDepthCameraSensor := false; Setup.isCameraSensor := true;
              Setup.renderer := Some "color"%string |}
           "depth"%string "ired1"%string "ired2"%string "color"%string);
    reflexivity.
Defined.

Lemma Load_null_sensor_no_color :
  (Setup.as_DepthCameraSensor (no_color_sensor DEPTH_CAMERA_NAME) = None
   \/ Setup.as_CameraSensor (no_color_sensor IRED1_CAMERA_NAME) = None
   \/ Setup.as_CameraSensor (no_color_sensor IRED2_CAMERA_NAME) = None
   \/ Setup.as_CameraSensor (no_color_sensor COLOR_CAMERA_NAME) = None)
  /\ Setup.Load no_color_sensor "rs_camera" "default" = Crash NullDeref.
Proof.
  split; [do 3 right; reflexivity|].
  apply (Load_null_sensor no_color_sensor "rs_camera" "default").
  do 3 right. reflexivity.
Defined.

Lemma Load_null_renderer_infrared :
  exists (p : Setup.Plugin) (line : string),
    Setup.Load infrared_not_rendered "rs_camera" "default" = Ok p
    /\ Setup.cerr p = [line] /\ Setup.advertised p = [] /\ Setup.unbound p
    /\ line = "RealSensePlugin: InfraRed Camera 1 has not been found"%string.
Proof.
  apply (Load_null_renderer infrared_not_rendered "rs_camera" "default"
           {| Setup.isDepthCameraSensor := true; Setup.isCameraSensor := true;
              Setup.renderer := Some "depth"%string |}
           {| Setup.isDepthCameraSensor := false; Setup.isCameraSensor := true;
              Setup.renderer := None |}
           {| Setup.isDepthCameraSensor := false; Setup.isCameraSensor := true;
              Setup.renderer := None |}
           {| Setup.isDepthCameraSensor := false; Setup.isCameraSensor := true;
              Setup.renderer := Some "color"%string |});
    try reflexivity.
  right. left. reflexivity.
Defined.

(** ** The colour and infrared frames *)

Section RawFrames.

Import Raw.

Context (ConvertPixelFormat : string -> Z) (w : World).

Lemma payload_size (cam : Camera) :
  u32 (u32 (ImageDepth cam * ImageWidth cam) * ImageHeight cam)
  = (ImageDepth cam * ImageWidth cam * ImageHeight cam) mod 2 ^ 32.
Proof. unfold u32. apply Z.mul_mod_idemp_l. discriminate. Qed.

(** A colour or infrared frame whose camera buffer holds the image is
    published as exactly one message, on the publisher the callback was
    bound to, with one reading of the clock. The payload is the first
    Depth x Width x Height bytes of the buffer, that number reduced modulo
    2^32; when it is below 2^32 the payload is the whole image and its
    length is the step times the height. *)
Theorem OnNewFrame_publishes_one_image
    (cam : Camera) (pub : Publisher) (fd : Feed) :
  0 <= ImageDepth cam -> 0 <= ImageWidth cam -> 0 <= ImageHeight cam ->
  (Z.to_nat (ImageDepth cam * ImageWidth cam * ImageHeight cam)
   <= length (ImageData cam))%nat ->
  exists msg : Image,
    OnNewFrame ConvertPixelFormat w cam pub fd
    = Ok {| sent := sent fd ++ [(pub, msg)]; clockReads := S (clockReads fd) |}
    /\ time msg = GetSimTime w (clockReads fd)
    /\ width msg = ImageWidth cam /\ height msg = ImageHeight cam
    /\ pixel_format msg = ConvertPixelFormat (ImageFormat cam)
    /\ step msg = (ImageWidth cam * ImageDepth cam) mod 2 ^ 32
    /\ Z.of_nat (length (data msg))
       = (ImageDepth cam * ImageWidth cam * ImageHeight cam) mod 2 ^ 32
    /\ (forall i : nat,
           (i < length (data msg))%nat -> data msg !! i = ImageData cam !! i)
    /\ (ImageDepth cam * ImageWidth cam * ImageHeight cam < 2 ^ 32 ->
        data msg
        = take (Z.to_nat (ImageDepth cam * ImageWidth cam * ImageHeight cam))
            (ImageData cam)
        /\ step msg * height msg = Z.of_nat (length (data msg))).
Proof.
  intros HD HW HH Hbuf.
  set (total := ImageDepth cam * ImageWidth cam * ImageHeight cam) in *.
  assert (0 <= total) as Htot by (subst total; nia).
  pose proof (Z.mod_pos_bound total (2 ^ 32) eq_refl) as Hmod.
  pose proof (Z.mod_le total (2 ^ 32) Htot eq_refl) as Hle.
  unfold OnNewFrame. rewrite payload_size. fold total.
  destruct (decide (Z.to_nat (total mod 2 ^ 32) <= length (ImageData cam))%nat)
    as [Hfit | Hno]; [|lia].
  eexists. split; [reflexivity|]. cbn [time width height pixel_format step data].
  rewrite length_take.
  do 5 (split; [reflexivity|]).
  split; [lia|]. split.
  - intros i Hi. apply lookup_take_lt. lia.
  - intros Hsmall. rewrite Z.mod_small by lia.
    split; [reflexivity|].
    unfold u32. change (2 ^ 32) with 4294967296 in *.
    destruct (Z.eq_dec (ImageHeight cam) 0) as [H0 | H0].
    + subst total. rewrite H0, !Z.mul_0_r. cbn. lia.
    + rewrite Z.mod_small by (subst total; nia). subst total. lia.
Qed.


End RawFrames.

Lemma OnNewFrame_publishes_one_image_rgb :
  exists msg : Raw.Image,
    Raw.OnNewFrame rgb_only ticking rgb_2x1 colorPub no_feed
    = Ok {| Raw.sent := Raw.sent no_feed ++ [(colorPub, msg)];
            Raw.clockReads := S (Raw.clockReads no_feed) |}
    /\ Raw.time msg = GetSimTime ticking (Raw.clockReads no_feed)
    /\ Raw.width msg = Raw.ImageWidth rgb_2x1
    /\ Raw.height msg = Raw.ImageHeight rgb_2x1
    /\ Raw.pixel_format msg = rgb_only (Raw.ImageFormat rgb_2x1)
    /\ Raw.step msg
       = (Raw.ImageWidth rgb_2x1 * Raw.ImageDepth rgb_2x1) mod 2 ^ 32
    /\ Z.of_nat (length (Raw.data msg))
       = (Raw.ImageDepth rgb_2x1 * Raw.ImageWidth rgb_2x1
          * Raw.ImageHeight rgb_2x1) mod 2 ^ 32
    /\ (forall i : nat,
           (i < length (Raw.data msg))%nat ->
           Raw.data msg !! i = Raw.ImageData rgb_2x1 !! i)
    /\ (Raw.ImageDepth rgb_2x1 * Raw.ImageWidth rgb_2x1
        * Raw.ImageHeight rgb_2x1 < 2 ^ 32 ->
        Raw.data msg
        = take (Z.to_nat (Raw.ImageDepth rgb_2x1 * Raw.ImageWidth rgb_2x1
                          * Raw.ImageHeight rgb_2x1))
            (Raw.ImageData rgb_2x1)
        /\ Raw.step msg * Raw.height msg = Z.of_nat (length (Raw.data msg))).
Proof.
  apply (OnNewFrame_publishes_one_image rgb_only ticking rgb_2x1 colorPub no_feed).
  - simpl. lia.
  - simpl. lia.
  - simpl. lia.
  - simpl. lia.
Defined.


(** ** Where a depth frame is undefined *)

Section Faults.

Lemma encode_all_result (l : list IEEE.float) :
  match encode_all l with
  | Ok _ => Forall (fun v : IEEE.float => IEEE.is_nan v = false) l
  | Crash f => f = BadCast /\ Exists (fun v : IEEE.float => IEEE.is_nan v = true) l
  end.
Proof.
  induction l as [|v l IH]; cbn [encode_all]; [constructor|].
  pose proof (encode_cases v) as Hc.
  destruct (encode v) as [x | f].
  - destruct Hc as [Hn _].
    destruct (encode_all l) as [xs | f].
    + constructor; assumption.
    + destruct IH as [-> IH]. split; [reflexivity|]. apply Exists_cons_tl, IH.
  - destruct Hc as [Hn ->]. split; [reflexivity|]. apply Exists_cons_hd, Hn.
Qed.

Lemma ensureCapacity_answer (w : World) (n : Z) (st st1 : Stream) (ok : bool) :
  ensureCapacity w n st = Ok (ok, st1) ->
  ok = true
  <-> (Z.of_nat (length (depthMap st)) = n \/ resizeOk w (resizes st) = true).
Proof.
  intros Hcap.
  destruct (decide (Z.of_nat (length (depthMap st)) = n)) as [Heq | Hne].
  - rewrite (ensureCapacity_sized w n st Heq) in Hcap. split; [auto | congruence].
  - destruct (resizeOk w (resizes st)) eqn:Hok.
    + rewrite (ensureCapacity_resized w n st Hne Hok) in Hcap.
      split; [auto | congruence].
    + rewrite (ensureCapacity_failed w n st Hne Hok) in Hcap.
      split; [congruence | intros [H | H]; [contradiction | discriminate]].
Qed.

(** A depth frame has undefined behaviour in two cases only, both behind
    the size check: the camera's buffer is shorter than the frame, so
    that packing the view message reads past its end; or one of the
    samples of the frame is NaN, which the conversion to [uint16_t] cannot
    represent. A frame whose [resize] fails has neither. *)
Theorem frame_faults_exactly
    (w : World) (cam : DepthCamera) (st : Stream) (f : Fault) :
  run (OnNewDepthFrame w cam) st = Crash f
  <-> (Z.of_nat (length (depthMap st)) = imageSize cam
       \/ resizeOk w (resizes st) = true)
      /\ ((f = OutOfBounds
           /\ (length (DepthData cam) < Z.to_nat (imageSize cam))%nat)
          \/ (f = BadCast
              /\ (Z.to_nat (imageSize cam) <= length (DepthData cam))%nat
              /\ Exists (fun v : IEEE.float => IEEE.is_nan v = true)
                   (take (Z.to_nat (imageSize cam)) (DepthData cam)))).
Proof.
  pose proof (encode_all_result
                (take (Z.to_nat (imageSize cam)) (DepthData cam))) as Henc.
  destruct (frame_cases w cam st)
    as [(st1 & Hcap & Hr & _)
       | (st1 & Hcap & _ & _ & _ &
          [[Hsrc Hr] | [(Hsrc & f' & He & Hr) | (Hsrc & ys & He & Hr)]])];
    apply ensureCapacity_answer in Hcap; rewrite Hr; rewrite ?He in Henc.
  - split; [discriminate|]. intros [Hok _]. apply Hcap in Hok. discriminate.
  - split.
    + intros [= <-]. split; [apply Hcap; reflexivity|]. left. split; [reflexivity | lia].
    + intros [_ [[-> _] | (_ & Hfit & _)]]; [reflexivity | contradiction].
  - destruct Henc as [-> Hnan]. split.
    + intros [= <-]. split; [apply Hcap; reflexivity|]. right. auto.
    + intros [_ [[_ Hshort] | (-> & _)]]; [lia | reflexivity].
  - split; [discriminate|].
    intros [_ [[_ Hshort] | (_ & _ & Hnan)]]; [lia|].
    apply Exists_exists in Hnan as (v & Hin & Hv).
    rewrite Forall_forall in Henc. specialize (Henc v Hin). congruence.
Qed.

End Faults.
